(** * reminder-tui: the task/note models, the file store and the reminder
      scheduler, embedded from the Go sources.

    - [time]      : the part of Go's [time] package the program uses
    - [models]    : internal/models (note.go, task.go)
    - [storage]   : internal/storage (FileStorage over two JSON documents)
    - [reminder]  : internal/reminder (ReminderService.checkReminders)

    Conventions.  Every call of [time.Now()] in the source becomes an explicit
    argument [now] of the embedded method (model methods) or a reading of the
    scheduler's clock (reminder loop).  Pointers to freshly unmarshalled
    records are values.  The store's mutex is not modelled: operations run
    one at a time. *)

From Stdlib Require Import ZArith List Bool String Lia.
From stdpp Require Import gmap strings list fin_maps.
Import ListNotations.

Local Open Scope string_scope.
Local Open Scope list_scope.
Local Open Scope Z_scope.

(* ===================================================================== *)
(** ** Go's [time.Time] and [time.Duration] *)
(* ===================================================================== *)

Module time.

(** An instant, counted in nanoseconds on one time line whose origin is
    the zero [Time].  Go stores seconds in an int64 besides the nanoseconds,
    a range far beyond any instant the program parses or reads; instants
    are unbounded here. *)
Abbreviation Time := Z (only parsing).

(** [time.Duration] is an int64 count of nanoseconds. *)
Abbreviation Duration := Z (only parsing).

Definition minDuration : Duration := - 2 ^ 63.
Definition maxDuration : Duration := 2 ^ 63 - 1.

Definition Second : Duration := 1000000000.
Definition Hour : Duration := 3600 * Second.

(** Two's-complement wrap-around of int64 arithmetic. *)
Definition wrap64 (z : Z) : Duration := (z + 2 ^ 63) mod 2 ^ 64 - 2 ^ 63.

(** Unary minus on a Duration ([-offset], [-period]). *)
Definition neg (d : Duration) : Duration := wrap64 (- d).

(** [t.Sub(u)]: the difference, saturated to the Duration range
    ("If the result exceeds the maximum (or minimum) value that can be
    stored in a Duration, the maximum (or minimum) duration will be
    returned."). *)
Definition Sub (t u : Time) : Duration :=
  if t - u <? minDuration then minDuration
  else if maxDuration <? t - u then maxDuration
  else t - u.

Definition Add (t : Time) (d : Duration) : Time := t + d.

Definition Before (t u : Time) : bool := t <? u.
Definition After (t u : Time) : bool := u <? t.

End time.

(* ===================================================================== *)
(** ** internal/models *)
(* ===================================================================== *)

Module models.

(** [type NoteID string], [type TaskID string] *)
Abbreviation NoteID := string (only parsing).
Abbreviation TaskID := string (only parsing).

Inductive Priority := LowPriority | MediumPriority | HighPriority.

Inductive TaskStatus :=
| TaskStatusPending
| TaskStatusInProgress
| TaskStatusCompleted
| TaskStatusOverdue.

(** [status == TaskStatusCompleted] *)
Definition isCompleted (s : TaskStatus) : bool :=
  match s with TaskStatusCompleted => true | _ => false end.

(** The loop shared by every AddTag: is some existing tag [== tag]? *)
Fixpoint hasTag (tag : string) (tags : list string) : bool :=
  match tags with
  | [] => false
  | existing :: rest => if String.eqb existing tag then true else hasTag tag rest
  end.

(** The first index [i] at which [l[i]] satisfies [p]: the
    [for i, x := range l { if p(x) { ... } }] loops that stop at the
    first match. *)
Fixpoint indexOf {A : Type} (p : A -> bool) (l : list A) : option nat :=
  match l with
  | [] => None
  | x :: rest =>
      if p x then Some O
      else match indexOf p rest with
           | Some i => Some (S i)
           | None => None
           end
  end.

(** The loop shared by every RemoveTag: the first index [i] with
    [tags[i] == tag]. *)
Definition tagIndex (tag : string) (tags : list string) : option nat :=
  indexOf (fun existing => String.eqb existing tag) tags.

End models.

Module Note.
Import models.

Record t := mk {
  ID : NoteID;
  Title : string;
  Content : string;
  CreatedAt : time.Time;
  UpdatedAt : time.Time;
  Tags : list string;
  Priority : models.Priority;
  IsCompleted : bool;
  DueDate : time.Time
}.

Definition NewNote (id : NoteID) (now : time.Time) (title content : string) : t :=
  {| ID := id; Title := title; Content := content;
     CreatedAt := now; UpdatedAt := now; Tags := [];
     Priority := MediumPriority; IsCompleted := false; DueDate := 0 |}.

Definition SetDueDate (now : time.Time) (dueDate : time.Time) (n : t) : t :=
  {| ID := ID n; Title := Title n; Content := Content n;
     CreatedAt := CreatedAt n; UpdatedAt := now; Tags := Tags n;
     Priority := Priority n; IsCompleted := IsCompleted n; DueDate := dueDate |}.

Definition Complete (now : time.Time) (n : t) : t :=
  {| ID := ID n; Title := Title n; Content := Content n;
     CreatedAt := CreatedAt n; UpdatedAt := now; Tags := Tags n;
     Priority := Priority n; IsCompleted := true; DueDate := DueDate n |}.

Definition Update (now : time.Time) (title content : string) (n : t) : t :=
  {| ID := ID n; Title := title; Content := content;
     CreatedAt := CreatedAt n; UpdatedAt := now; Tags := Tags n;
     Priority := Priority n; IsCompleted := IsCompleted n; DueDate := DueDate n |}.

(** [n.Tags = tags; n.UpdatedAt = time.Now()] *)
Definition retag (now : time.Time) (tags : list string) (n : t) : t :=
  {| ID := ID n; Title := Title n; Content := Content n;
     CreatedAt := CreatedAt n; UpdatedAt := now; Tags := tags;
     Priority := Priority n; IsCompleted := IsCompleted n; DueDate := DueDate n |}.

Definition AddTag (now : time.Time) (tag : string) (n : t) : t :=
  if hasTag tag (Tags n) then n
  else retag now (Tags n ++ [tag]) n.

(** [n.Tags = append(n.Tags[:i], n.Tags[i+1:]...)] *)
Definition RemoveTag (now : time.Time) (tag : string) (n : t) : t :=
  match tagIndex tag (Tags n) with
  | Some i => retag now (firstn i (Tags n) ++ skipn (S i) (Tags n)) n
  | None => n
  end.

Definition SetPriority (now : time.Time) (priority : models.Priority) (n : t) : t :=
  {| ID := ID n; Title := Title n; Content := Content n;
     CreatedAt := CreatedAt n; UpdatedAt := now; Tags := Tags n;
     Priority := priority; IsCompleted := IsCompleted n; DueDate := DueDate n |}.

(** The mutating methods of *Note, as data, and their dispatch. *)
Inductive Method :=
| mSetDueDate (dueDate : time.Time)
| mComplete
| mUpdate (title content : string)
| mAddTag (tag : string)
| mRemoveTag (tag : string)
| mSetPriority (priority : models.Priority).

Definition call (now : time.Time) (m : Method) (n : t) : t :=
  match m with
  | mSetDueDate dueDate => SetDueDate now dueDate n
  | mComplete => Complete now n
  | mUpdate title content => Update now title content n
  | mAddTag tag => AddTag now tag n
  | mRemoveTag tag => RemoveTag now tag n
  | mSetPriority priority => SetPriority now priority n
  end.

End Note.

Module Task.
Import models.

Record t := mk {
  ID : TaskID;
  Title : string;
  Description : string;
  CreatedAt : time.Time;
  UpdatedAt : time.Time;
  DueDate : time.Time;
  ReminderAt : time.Time;
  Priority : models.Priority;
  Status : TaskStatus;
  Tags : list string;
  NoteID : string
}.

(** Field assignments [t.F = v], one per mutated field. *)
Definition setUpdatedAt (v : time.Time) (k : t) : t :=
  {| ID := ID k; Title := Title k; Description := Description k;
     CreatedAt := CreatedAt k; UpdatedAt := v; DueDate := DueDate k;
     ReminderAt := ReminderAt k; Priority := Priority k; Status := Status k;
     Tags := Tags k; NoteID := NoteID k |}.

Definition setReminderAt (v : time.Time) (k : t) : t :=
  {| ID := ID k; Title := Title k; Description := Description k;
     CreatedAt := CreatedAt k; UpdatedAt := UpdatedAt k; DueDate := DueDate k;
     ReminderAt := v; Priority := Priority k; Status := Status k;
     Tags := Tags k; NoteID := NoteID k |}.

Definition setStatus (v : TaskStatus) (k : t) : t :=
  {| ID := ID k; Title := Title k; Description := Description k;
     CreatedAt := CreatedAt k; UpdatedAt := UpdatedAt k; DueDate := DueDate k;
     ReminderAt := ReminderAt k; Priority := Priority k; Status := v;
     Tags := Tags k; NoteID := NoteID k |}.

Definition setTags (v : list string) (k : t) : t :=
  {| ID := ID k; Title := Title k; Description := Description k;
     CreatedAt := CreatedAt k; UpdatedAt := UpdatedAt k; DueDate := DueDate k;
     ReminderAt := ReminderAt k; Priority := Priority k; Status := Status k;
     Tags := v; NoteID := NoteID k |}.

Definition setPriority (v : models.Priority) (k : t) : t :=
  {| ID := ID k; Title := Title k; Description := Description k;
     CreatedAt := CreatedAt k; UpdatedAt := UpdatedAt k; DueDate := DueDate k;
     ReminderAt := ReminderAt k; Priority := v; Status := Status k;
     Tags := Tags k; NoteID := NoteID k |}.

Definition setNoteID (v : string) (k : t) : t :=
  {| ID := ID k; Title := Title k; Description := Description k;
     CreatedAt := CreatedAt k; UpdatedAt := UpdatedAt k; DueDate := DueDate k;
     ReminderAt := ReminderAt k; Priority := Priority k; Status := Status k;
     Tags := Tags k; NoteID := v |}.

(** [t.Title = title; t.Description = description; t.DueDate = dueDate] *)
Definition setHeader (title description : string) (dueDate : time.Time) (k : t) : t :=
  {| ID := ID k; Title := title; Description := description;
     CreatedAt := CreatedAt k; UpdatedAt := UpdatedAt k; DueDate := dueDate;
     ReminderAt := ReminderAt k; Priority := Priority k; Status := Status k;
     Tags := Tags k; NoteID := NoteID k |}.

(** [id] is the value of [GenerateUniqueID()], [now] of [time.Now()]. *)
Definition NewTask (id : TaskID) (now : time.Time)
    (title description : string) (dueDate : time.Time) : t :=
  let reminderAt := time.Add dueDate (-1 * time.Hour) in
  {| ID := id; Title := title; Description := description;
     CreatedAt := now; UpdatedAt := now; DueDate := dueDate;
     ReminderAt := reminderAt; Priority := MediumPriority;
     Status := TaskStatusPending; Tags := []; NoteID := "" |}.

Definition SetReminderTime (now : time.Time) (reminderAt : time.Time) (k : t) : t :=
  setUpdatedAt now (setReminderAt reminderAt k).

Definition SetReminderPeriod (now : time.Time) (period : time.Duration) (k : t) : t :=
  setUpdatedAt now (setReminderAt (time.Add (DueDate k) (time.neg period)) k).

Definition MarkInProgress (now : time.Time) (k : t) : t :=
  setUpdatedAt now (setStatus TaskStatusCompleted k).

Definition Complete (now : time.Time) (k : t) : t :=
  setUpdatedAt now (setStatus TaskStatusCompleted k).

(** The due date is assigned first; [offset] is then computed from the
    already updated [t.DueDate]. *)
Definition Update (now : time.Time) (title description : string)
    (dueDate : time.Time) (k : t) : t :=
  let k1 := setUpdatedAt now (setHeader title description dueDate k) in
  let offset := time.Sub (DueDate k1) (ReminderAt k1) in
  setReminderAt (time.Add dueDate (time.neg offset)) k1.

Definition IsOverDue (now : time.Time) (k : t) : bool :=
  time.After now (DueDate k) && negb (isCompleted (Status k)).

Definition UpdateStatus (now : time.Time) (k : t) : t :=
  if isCompleted (Status k) then k
  else if IsOverDue now k then setStatus TaskStatusOverdue k
  else k.

Definition AddTag (now : time.Time) (tag : string) (k : t) : t :=
  if hasTag tag (Tags k) then k
  else setUpdatedAt now (setTags (Tags k ++ [tag]) k).

(** [t.Tags = append(t.Tags, t.Tags[i+1:]...)]: the tail after the match
    is appended to the whole slice. *)
Definition RemoveTag (now : time.Time) (tag : string) (k : t) : t :=
  match tagIndex tag (Tags k) with
  | Some i => setUpdatedAt now (setTags (Tags k ++ skipn (S i) (Tags k)) k)
  | None => k
  end.

Definition SetPriority (now : time.Time) (priority : models.Priority) (k : t) : t :=
  setUpdatedAt now (setPriority priority k).

Definition LinkToNote (now : time.Time) (noteID : string) (k : t) : t :=
  setUpdatedAt now (setNoteID noteID k).

(** The mutating methods of *Task, as data, and their dispatch. *)
Inductive Method :=
| mSetReminderTime (reminderAt : time.Time)
| mSetReminderPeriod (period : time.Duration)
| mMarkInProgress
| mComplete
| mUpdate (title description : string) (dueDate : time.Time)
| mUpdateStatus
| mAddTag (tag : string)
| mRemoveTag (tag : string)
| mSetPriority (priority : models.Priority)
| mLinkToNote (noteID : string).

Definition call (now : time.Time) (m : Method) (k : t) : t :=
  match m with
  | mSetReminderTime r => SetReminderTime now r k
  | mSetReminderPeriod p => SetReminderPeriod now p k
  | mMarkInProgress => MarkInProgress now k
  | mComplete => Complete now k
  | mUpdate title description dueDate => Update now title description dueDate k
  | mUpdateStatus => UpdateStatus now k
  | mAddTag tag => AddTag now tag k
  | mRemoveTag tag => RemoveTag now tag k
  | mSetPriority p => SetPriority now p k
  | mLinkToNote n => LinkToNote now n k
  end.

End Task.

(* ===================================================================== *)
(** ** internal/storage: FileStorage *)
(* ===================================================================== *)

Module storage.
Import models.

(** The errors the store builds with [fmt.Errorf]. *)
Inductive error :=
| ErrNotFound (id : string)   (* "... with ID %s not found" *)
| ErrRead                     (* "failed to read ...: %w" *)
| ErrParse                    (* "failed to parse ... file: %w" *)
| ErrWrite.                   (* "failed to marshal ...", "failed to write ..." *)

(** The spec's PersistenceError: every error except "not found". *)
Definition isPersistenceError (e : error) : bool :=
  match e with ErrNotFound _ => false | _ => true end.

Inductive result (A : Type) :=
| Ok (a : A)
| Err (e : error).
Arguments Ok {A} a.
Arguments Err {A} e.

(** One JSON document on disk.  [Doc l] holds the marshalled container of
    the records [l] ([json.Unmarshal] of [json.MarshalIndent] gives the
    records back); [Torn] is a file cut short by a failed write, which no
    longer parses. *)
Inductive File (A : Type) :=
| Absent
| Doc (records : list A)
| Torn.
Arguments Absent {A}.
Arguments Doc {A} records.
Arguments Torn {A}.

(** What the operating system does at one [os.WriteFile] (open with
    O_TRUNC, write, close: "a failure mid-operation can leave the file in
    a partially written state") and at one [os.ReadFile]. *)
Inductive WriteOutcome :=
| WriteOk
| WriteFailsEarly    (* marshalling or opening failed: nothing touched *)
| WriteFailsTorn     (* truncated, then the write stopped part-way *)
| WriteFailsLate.    (* all bytes written, the close reports an error *)

Inductive ReadOutcome :=
| ReadOk
| ReadFails.

(** The two documents of the data directory, and the outcomes of the
    system calls still to come (an exhausted script means success). *)
Record FileStorage := mkFileStorage {
  notesFile : File Note.t;
  tasksFile : File Task.t;
  readScript : list ReadOutcome;
  writeScript : list WriteOutcome
}.

(** State and error monad of the store's methods. *)
Definition M (A : Type) : Type := FileStorage -> result A * FileStorage.

Definition ret {A : Type} (a : A) : M A := fun s => (Ok a, s).
Definition fail {A : Type} (e : error) : M A := fun s => (Err e, s).
Definition bind {A B : Type} (c : M A) (k : A -> M B) : M B :=
  fun s =>
    match c s with
    | (Ok a, s') => k a s'
    | (Err e, s') => (Err e, s')
    end.

Notation "'let*' x ':=' c 'in' k" := (bind c (fun x => k))
  (at level 10, x name, c at level 100, k at level 200).

Definition nextRead : M ReadOutcome := fun s =>
  match readScript s with
  | [] => (Ok ReadOk, s)
  | o :: rest =>
      (Ok o, {| notesFile := notesFile s; tasksFile := tasksFile s;
                readScript := rest; writeScript := writeScript s |})
  end.

Definition nextWrite : M WriteOutcome := fun s =>
  match writeScript s with
  | [] => (Ok WriteOk, s)
  | o :: rest =>
      (Ok o, {| notesFile := notesFile s; tasksFile := tasksFile s;
                readScript := readScript s; writeScript := rest |})
  end.

Definition getNotesFile : M (File Note.t) := fun s => (Ok (notesFile s), s).
Definition getTasksFile : M (File Task.t) := fun s => (Ok (tasksFile s), s).

Definition putNotesFile (f : File Note.t) : M unit := fun s =>
  (Ok tt, {| notesFile := f; tasksFile := tasksFile s;
             readScript := readScript s; writeScript := writeScript s |}).

Definition putTasksFile (f : File Task.t) : M unit := fun s =>
  (Ok tt, {| notesFile := notesFile s; tasksFile := f;
             readScript := readScript s; writeScript := writeScript s |}).

(** [os.WriteFile(path, data, 0644)] on a file currently [old]: the file
    afterwards, and whether the call succeeded. *)
Definition os_WriteFile {A : Type} (data : list A) (old : File A)
    (o : WriteOutcome) : File A * bool :=
  match o with
  | WriteOk => (Doc data, true)
  | WriteFailsEarly => (old, false)
  | WriteFailsTorn => (Torn, false)
  | WriteFailsLate => (Doc data, false)
  end.

(** [os.ReadFile] followed by [json.Unmarshal] on an existing file. *)
Definition readDoc {A : Type} (f : File A) (o : ReadOutcome) : result (list A) :=
  match o with
  | ReadFails => Err ErrRead
  | ReadOk =>
      match f with
      | Doc l => Ok l
      | Torn => Err ErrParse
      | Absent => Err ErrRead
      end
  end.

(** [json.MarshalIndent], then [os.WriteFile] on the document itself. *)
Definition saveNotes (notes : list Note.t) : M unit :=
  let* o := nextWrite in
  let* old := getNotesFile in
  let (f, ok) := os_WriteFile notes old o in
  let* _ := putNotesFile f in
  if ok then ret tt else fail ErrWrite.

Definition saveTasks (tasks : list Task.t) : M unit :=
  let* o := nextWrite in
  let* old := getTasksFile in
  let (f, ok) := os_WriteFile tasks old o in
  let* _ := putTasksFile f in
  if ok then ret tt else fail ErrWrite.

(** When [os.Stat] reports a missing file:
    [return notes, s.saveNotes(notes)] with the empty container;
    otherwise read and parse. *)
Definition loadNotes : M (list Note.t) :=
  let* f := getNotesFile in
  match f with
  | Absent => let* _ := saveNotes [] in ret []
  | _ =>
      let* o := nextRead in
      match readDoc f o with
      | Ok l => ret l
      | Err e => fail e
      end
  end.

Definition loadTasks : M (list Task.t) :=
  let* f := getTasksFile in
  match f with
  | Absent => let* _ := saveTasks [] in ret []
  | _ =>
      let* o := nextRead in
      match readDoc f o with
      | Ok l => ret l
      | Err e => fail e
      end
  end.

Definition sameNote (id : NoteID) (n : Note.t) : bool := String.eqb (Note.ID n) id.
Definition sameTask (id : TaskID) (k : Task.t) : bool := String.eqb (Task.ID k) id.

(** The upsert loop: [l[i] = x] at the first [i] whose record has the
    identifier, [append(l, x)] when there is none.  The index is in range,
    so the list update never falls outside. *)
Definition upsert {A : Type} (same : A -> bool) (x : A) (l : list A) : list A :=
  match indexOf same l with
  | Some i => <[i := x]> l
  | None => l ++ [x]
  end.

Definition SaveNote (note : Note.t) : M unit :=
  let* notes := loadNotes in
  saveNotes (upsert (sameNote (Note.ID note)) note notes).

Definition GetNote (id : NoteID) : M Note.t :=
  let* notes := loadNotes in
  match indexOf (sameNote id) notes with
  | Some i => match notes !! i with Some n => ret n | None => fail (ErrNotFound id) end
  | None => fail (ErrNotFound id)
  end.

Definition GetAllNotes : M (list Note.t) := loadNotes.

(** [append(l[:i], l[i+1:]...)] at the first match, then save. *)
Definition DeleteNote (id : NoteID) : M unit :=
  let* notes := loadNotes in
  match indexOf (sameNote id) notes with
  | Some i => saveNotes (firstn i notes ++ skipn (S i) notes)
  | None => fail (ErrNotFound id)
  end.

Definition SaveTask (task : Task.t) : M unit :=
  let* tasks := loadTasks in
  saveTasks (upsert (sameTask (Task.ID task)) task tasks).

Definition GetTask (id : TaskID) : M Task.t :=
  let* tasks := loadTasks in
  match indexOf (sameTask id) tasks with
  | Some i => match tasks !! i with Some k => ret k | None => fail (ErrNotFound id) end
  | None => fail (ErrNotFound id)
  end.

Definition GetAllTasks : M (list Task.t) := loadTasks.

Definition DeleteTask (id : TaskID) : M unit :=
  let* tasks := loadTasks in
  match indexOf (sameTask id) tasks with
  | Some i => saveTasks (firstn i tasks ++ skipn (S i) tasks)
  | None => fail (ErrNotFound id)
  end.

(** The query loops: [result = append(result, task)] for every task that
    passes the test, in file order. *)
Definition collect {A : Type} (keep : A -> bool) (l : list A) : list A :=
  fold_left (fun result x => if keep x then result ++ [x] else result) l [].

Definition dueBefore (time : time.Time) (task : Task.t) : bool :=
  time.Before (Task.DueDate task) time && negb (isCompleted (Task.Status task)).

Definition reminderBefore (time : time.Time) (task : Task.t) : bool :=
  time.Before (Task.ReminderAt task) time && negb (isCompleted (Task.Status task)).

Definition GetTasksDueBefore (time : time.Time) : M (list Task.t) :=
  let* allTasks := loadTasks in
  ret (collect (dueBefore time) allTasks).

Definition GetTasksWithRemindersBy (time : time.Time) : M (list Task.t) :=
  let* allTasks := loadTasks in
  ret (collect (reminderBefore time) allTasks).

(** The tag queries: for every record the inner loop over its tags stops
    at the first tag [== tag] and appends the record once. *)
Definition GetNotesByTag (tag : string) : M (list Note.t) :=
  let* allNotes := loadNotes in
  ret (collect (fun note => hasTag tag (Note.Tags note)) allNotes).

Definition GetTaskByTag (tag : string) : M (list Task.t) :=
  let* allTasks := loadTasks in
  ret (collect (fun task => hasTag tag (Task.Tags task)) allTasks).

(** *** Vocabulary of the statements about the store *)

(** The list a successful load returns: a missing file is first created
    as the empty container. *)
Definition records {A : Type} (f : File A) : option (list A) :=
  match f with
  | Absent => Some []
  | Doc l => Some l
  | Torn => None
  end.


(** The store answers every system call. *)
Definition faultFree (st : FileStorage) : Prop :=
  readScript st = [] /\ writeScript st = [].

(** A write that succeeds, or fails without having touched the file. *)
Definition leavesFile (o : WriteOutcome) : bool :=
  match o with
  | WriteOk | WriteFailsEarly => true
  | WriteFailsTorn | WriteFailsLate => false
  end.

(** No write still to come fails after the file was truncated. *)
Definition noTornWrite (s : FileStorage) : Prop :=
  forallb leavesFile (writeScript s) = true.

(** The file after a call is the file before it, or the empty container
    that a load creates in place of a missing file. *)
Definition intact {A : Type} (before after : File A) : Prop :=
  after = before \/ (before = Absent /\ after = Doc []).

(** A call that wrote nothing: both files are as they were and no write
    outcome was consumed. *)
Definition untouched (s s' : FileStorage) : Prop :=
  notesFile s' = notesFile s /\ tasksFile s' = tasksFile s
  /\ writeScript s' = writeScript s.

End storage.

(* ===================================================================== *)
(** ** internal/reminder: ReminderService *)
(* ===================================================================== *)

Module reminder.
Import models storage.

(** What a tick does that is visible from outside the store, in order. *)
Inductive Event :=
| EvRecord (id : TaskID) (sentAt : time.Time)  (* r.sentReminders[id] = now *)
| EvNotify (task : Task.t)                     (* r.notifier.Notify(task) *)
| EvLog (e : error).                           (* fmt.Printf("error checking reminders ...") *)

(** The service: its store and ledger, the clock it reads ([clock] at
    index [reads] is the next value of [time.Now()]), and the events so
    far.  The Notifier is an interface whose result the tick drops; a call
    of it is the event [EvNotify]. *)
Record ReminderService := mkService {
  store : FileStorage;
  sentReminders : gmap string Z;
  clock : nat -> time.Time;
  reads : nat;
  trace : list Event
}.

Definition reNotifyWindow : time.Duration := 6 * time.Hour.
Definition ledgerExpiry : time.Duration := 24 * time.Hour.

(** The value the next [time.Now()] returns. *)
Definition tickTime (r : ReminderService) : time.Time := clock r (reads r).

Definition withStore (st : FileStorage) (r : ReminderService) : ReminderService :=
  {| store := st; sentReminders := sentReminders r; clock := clock r;
     reads := reads r; trace := trace r |}.

Definition withReads (n : nat) (r : ReminderService) : ReminderService :=
  {| store := store r; sentReminders := sentReminders r; clock := clock r;
     reads := n; trace := trace r |}.

(** [lastSent, found := r.sentReminders[task.ID];
     shouldSend := !found || now.Sub(lastSent) > 6*time.Hour],
    as a function of [task.ID]. *)
Definition shouldSend (now : time.Time) (sent : gmap string Z) (id : TaskID) : bool :=
  match sent !! id with
  | None => true
  | Some lastSent => reNotifyWindow <? time.Sub now lastSent
  end.

(** The body of the loop over the due tasks.  [task.UpdateStatus()] reads
    the clock unless the task is Completed; the error of
    [r.storage.SaveTask(task)] and the result of [Notify] are dropped. *)
Definition remind (now : time.Time) (r : ReminderService) (task : Task.t)
    : ReminderService :=
  if shouldSend now (sentReminders r) (Task.ID task) then
    let sent := <[Task.ID task := now]> (sentReminders r) in
    let task' := Task.UpdateStatus (tickTime r) task in
    let reads' := if isCompleted (Task.Status task) then reads r else S (reads r) in
    let (_, st) := SaveTask task' (store r) in
    {| store := st; sentReminders := sent; clock := clock r; reads := reads';
       trace := trace r ++ [EvRecord (Task.ID task) now; EvNotify task'] |}
  else r.

(** The closing loop: [if now.Sub(sentTime) > 24*time.Hour { delete }]
    over every entry of the map. *)
Definition sweep (now : time.Time) (sent : gmap string Z) : gmap string Z :=
  filter (fun entry : string * Z => ¬ (ledgerExpiry < time.Sub now entry.2)) sent.

Definition sweepLedger (now : time.Time) (r : ReminderService) : ReminderService :=
  {| store := store r; sentReminders := sweep now (sentReminders r);
     clock := clock r; reads := reads r; trace := trace r |}.

Definition logError (e : error) (r : ReminderService) : ReminderService :=
  {| store := store r; sentReminders := sentReminders r; clock := clock r;
     reads := reads r; trace := trace r ++ [EvLog e] |}.

(** [checkReminders] after [now := time.Now()]: query, loop, sweep; a
    failed query is logged and ends the tick. *)
Definition checkRemindersAt (now : time.Time) (r : ReminderService) : ReminderService :=
  match GetTasksWithRemindersBy now (store r) with
  | (Err e, st) => logError e (withStore st r)
  | (Ok tasks, st) => sweepLedger now (fold_left (remind now) tasks (withStore st r))
  end.

Definition checkReminders (r : ReminderService) : ReminderService :=
  checkRemindersAt (tickTime r) (withReads (S (reads r)) r).

(** The tasks a tick iterates over: the result of its query. *)
Definition dueTasks (now : time.Time) (r : ReminderService) : result (list Task.t) :=
  fst (GetTasksWithRemindersBy now (store r)).

(** The service as the loop of that tick finds it. *)
Definition afterQuery (now : time.Time) (r : ReminderService) : ReminderService :=
  withStore (snd (GetTasksWithRemindersBy now (store r))) r.

(** The service when the loop, having gone through the due tasks [pre],
    reaches the next one. *)
Definition loopAfter (now : time.Time) (r : ReminderService) (pre : list Task.t)
    : ReminderService :=
  fold_left (remind now) pre (afterQuery now r).


(** [reminderLoop] when the ticker fires [n] times before [stopChan] is
    closed: [n] runs of [checkReminders], one after the other. *)
Definition reminderLoop (n : nat) (r : ReminderService) : ReminderService :=
  Nat.iter n checkReminders r.

(** *** Vocabulary of the statements about the scheduler *)

(** Is the event a call of the Notifier with a task of identifier [id]? *)
Definition notified (id : TaskID) (ev : Event) : bool :=
  match ev with
  | EvNotify task => String.eqb (Task.ID task) id
  | _ => false
  end.

(** How often the Notifier was called with a task of identifier [id]. *)
Definition notifyCount (id : TaskID) (tr : list Event) : nat :=
  length (List.filter (notified id) tr).

Definition isLog (ev : Event) : bool :=
  match ev with EvLog _ => true | _ => false end.

(** Events that come in pairs: a ledger write for an identifier, then the
    Notifier called with a task of that identifier. *)
Inductive paired : list Event -> Prop :=
| paired_nil : paired []
| paired_cons (sentAt : time.Time) (task : Task.t) (evs : list Event) :
    paired evs ->
    paired (EvRecord (Task.ID task) sentAt :: EvNotify task :: evs).


(** A stored task as a tick at [now] may leave it: as it was, or, if the
    query at [now] returns it, with status Overdue. *)
Definition promoted (now : time.Time) (old new : Task.t) : Prop :=
  new = old
  \/ (new = Task.setStatus TaskStatusOverdue old /\ reminderBefore now old = true).

(** The store answers every system call and its tasks file holds a task
    of identifier [id] that the query at [now] returns. *)
Definition stillDue (now : time.Time) (id : TaskID) (st : FileStorage) : Prop :=
  faultFree st
  /\ exists l, tasksFile st = Doc l
               /\ Exists (fun x => Task.ID x = id /\ reminderBefore now x = true) l.

End reminder.

(* ===================================================================== *)
(** ** internal/ui: what the form and the keys do to a task *)
(* ===================================================================== *)

Module ui.
Import models.

(** Key "c" on the selected task: a Completed task is set back to Pending
    by a plain assignment, any other task is completed. *)
Definition toggleTask (now : time.Time) (k : Task.t) : Task.t :=
  if isCompleted (Task.Status k) then Task.setStatus TaskStatusPending k
  else Task.Complete now k.


End ui.

(* ===================================================================== *)
(** ** Sample data *)
(* ===================================================================== *)

Module samples.
Import models storage reminder.

(** Due two hours after the origin of the time line, reminder one hour
    before that. *)
Definition rent : Task.t :=
  Task.NewTask "20250101120000aaaaaaaa" 1 "Pay rent" "landlord" 7200000000000.

Definition rentDone : Task.t := Task.Complete 5 rent.

(** [rent] once a status check has found it past its due date. *)
Definition rentOverdue : Task.t := Task.UpdateStatus 8000000000000 rent.

Definition taxes : Task.t :=
  Task.NewTask "20250102090000bbbbbbbb" 2 "File taxes" "" 9000000000000.

Definition rentPaid : Task.t := Task.Update 6 "Pay rent" "paid in cash" 7200000000000 rent.

Definition groceries : Note.t :=
  Note.NewNote "20250103080000cccccccc" 3 "Groceries" "milk, eggs".


Definition recipe : Note.t :=
  Note.NewNote "20250104080000dddddddd" 4 "Recipe" "dal".

(** A data directory holding two tasks and two notes; no system call
    fails. *)
Definition disk : FileStorage :=
  {| notesFile := Doc [groceries; recipe]; tasksFile := Doc [rent; taxes];
     readScript := []; writeScript := [] |}.

(** The same directory when the next write stops part-way, and when it
    cannot open the file. *)
Definition diskTornWrite : FileStorage :=
  {| notesFile := Doc [groceries; recipe]; tasksFile := Doc [rent; taxes];
     readScript := []; writeScript := [WriteFailsTorn] |}.

Definition diskNoWrite : FileStorage :=
  {| notesFile := Doc [groceries; recipe]; tasksFile := Doc [rent; taxes];
     readScript := []; writeScript := [WriteFailsEarly] |}.

(** A clock that advances by [step] at every reading. *)
Definition clockFrom (start step : time.Duration) : nat -> time.Time :=
  fun n => start + step * Z.of_nat n.

Definition minute : time.Duration := 60 * time.Second.

(** A service just started (empty ledger) a little after the reminder
    time of [rent]; its clock advances by a minute at every reading. *)
Definition everyMinute : ReminderService :=
  {| store := disk; sentReminders := ∅; clock := clockFrom 4000000000000 minute;
     reads := 0; trace := [] |}.



(** A service whose clock reads exactly the reminder time of [rent]. *)
Definition atReminderTime : ReminderService :=
  {| store := disk; sentReminders := ∅;
     clock := clockFrom 3600000000000 minute; reads := 0; trace := [] |}.

(** A service whose first write to disk cannot open the file, started
    after [rent] and [taxes] fell due. *)
Definition lateNoWrite : ReminderService :=
  {| store := diskNoWrite; sentReminders := ∅;
     clock := clockFrom 9500000000000 minute; reads := 0; trace := [] |}.

End samples.

(* ===================================================================== *)
(** * Properties *)
(* ===================================================================== *)

Import models storage reminder ui samples.

(** ** Durations *)

Lemma wrap64_id (z : Z) :
  time.minDuration <= z <= time.maxDuration -> time.wrap64 z = z.
Proof.
  unfold time.wrap64, time.minDuration, time.maxDuration. intros Hz.
  rewrite Z.mod_small by lia. lia.
Qed.

Lemma Sub_exact (t u : time.Time) :
  time.minDuration <= t - u <= time.maxDuration -> time.Sub t u = t - u.
Proof.
  unfold time.Sub. intros [Hlo Hhi].
  destruct (Z.ltb_spec (t - u) time.minDuration); [lia |].
  destruct (Z.ltb_spec time.maxDuration (t - u)); [lia | reflexivity].
Qed.

Lemma Sub_self (t : time.Time) : time.Sub t t = 0.
Proof.
  rewrite Sub_exact; [lia |].
  unfold time.minDuration, time.maxDuration. lia.
Qed.

(** Saturation does not disturb a comparison with a bound that is itself a
    non-negative Duration: the windows of the scheduler. *)
Lemma Sub_gt_window (t u : time.Time) (w : time.Duration) :
  0 <= w <= time.maxDuration - 1 -> (w < time.Sub t u <-> w < t - u).
Proof.
  unfold time.Sub, time.minDuration, time.maxDuration. intros Hw.
  destruct (Z.ltb_spec (t - u) (- 2 ^ 63)).
  - lia.
  - destruct (Z.ltb_spec (2 ^ 63 - 1) (t - u)); lia.
Qed.

Lemma reNotifyWindow_range : 0 <= reNotifyWindow <= time.maxDuration - 1.
Proof. vm_compute. split; discriminate. Qed.

Lemma ledgerExpiry_range : 0 <= ledgerExpiry <= time.maxDuration - 1.
Proof. vm_compute. split; discriminate. Qed.

(** ** Task status *)

Lemma isCompleted_false (s : TaskStatus) : isCompleted s = false <-> s <> TaskStatusCompleted.
Proof. destruct s; simpl; split; congruence. Qed.

Lemma UpdateStatus_completed (now : time.Time) (k : Task.t) :
  Task.Status k = TaskStatusCompleted -> Task.UpdateStatus now k = k.
Proof. intros H. unfold Task.UpdateStatus. rewrite H. reflexivity. Qed.

Lemma UpdateStatus_ID (now : time.Time) (k : Task.t) :
  Task.ID (Task.UpdateStatus now k) = Task.ID k.
Proof.
  unfold Task.UpdateStatus.
  destruct (isCompleted (Task.Status k)); [reflexivity |].
  destruct (Task.IsOverDue now k); reflexivity.
Qed.

Lemma UpdateStatus_ReminderAt (now : time.Time) (k : Task.t) :
  Task.ReminderAt (Task.UpdateStatus now k) = Task.ReminderAt k.
Proof.
  unfold Task.UpdateStatus.
  destruct (isCompleted (Task.Status k)); [reflexivity |].
  destruct (Task.IsOverDue now k); reflexivity.
Qed.

Lemma UpdateStatus_isCompleted (now : time.Time) (k : Task.t) :
  isCompleted (Task.Status (Task.UpdateStatus now k)) = isCompleted (Task.Status k).
Proof.
  unfold Task.UpdateStatus.
  destruct (isCompleted (Task.Status k)) eqn:E; [exact E |].
  destruct (Task.IsOverDue now k); [reflexivity | exact E].
Qed.

(** C3.  A Completed task is a fixed point of [UpdateStatus]: whatever the
    due date and whatever the clock reads at each call, any number of calls
    returns the task as it was, so its status stays Completed. *)
Theorem UpdateStatus_completed_absorbing (k : Task.t) (nows : list time.Time) :
  Task.Status k = TaskStatusCompleted ->
  fold_left (fun k' now => Task.UpdateStatus now k') nows k = k
  /\ Task.Status (fold_left (fun k' now => Task.UpdateStatus now k') nows k)
     = TaskStatusCompleted.
Proof.
  intros Hk.
  assert (Hfix : fold_left (fun k' now => Task.UpdateStatus now k') nows k = k).
  { induction nows as [| now nows IH]; simpl.
    - reflexivity.
    - rewrite (UpdateStatus_completed now k Hk). exact IH. }
  rewrite Hfix. split; [reflexivity | exact Hk].
Qed.

Lemma UpdateStatus_completed_absorbing_witness :
  Task.Status rentDone = TaskStatusCompleted
  /\ Task.Status (fold_left (fun k' now => Task.UpdateStatus now k') [50; 7200000000001; 9000000000000] rentDone)
     = TaskStatusCompleted.
Proof.
  split; [reflexivity |].
  apply (UpdateStatus_completed_absorbing rentDone [50; 7200000000001; 9000000000000]). reflexivity.
Defined.

(** C9.  [MarkInProgress] stores Completed, exactly as [Complete] does; a
    new task is Pending, and every method of a task leaves the status as it
    was or stores Completed or Overdue: none stores InProgress. *)
Theorem MarkInProgress_completes (now : time.Time) (k : Task.t) :
  Task.Status (Task.MarkInProgress now k) = TaskStatusCompleted
  /\ Task.MarkInProgress now k = Task.Complete now k
  /\ (forall id title description dueDate,
        Task.Status (Task.NewTask id now title description dueDate) = TaskStatusPending)
  /\ (forall m : Task.Method,
        Task.Status (Task.call now m k) = Task.Status k
        \/ Task.Status (Task.call now m k) = TaskStatusCompleted
        \/ Task.Status (Task.call now m k) = TaskStatusOverdue).
Proof.
  split; [reflexivity |]. split; [reflexivity |]. split; [reflexivity |].
  intros m. destruct m; simpl; auto.
  - unfold Task.UpdateStatus.
    destruct (isCompleted (Task.Status k)); [auto |].
    destruct (Task.IsOverDue now k); simpl; auto.
  - unfold Task.AddTag. destruct (hasTag tag (Task.Tags k)); simpl; auto.
  - unfold Task.RemoveTag. destruct (tagIndex tag (Task.Tags k)); simpl; auto.
Qed.

(** C8 (amended).  When the new due date minus the old reminder time is a
    Duration whose negation is a Duration too (more than [minDuration], at
    most [maxDuration]: about 292 years either way), [Update] leaves
    [ReminderAt] as it was: the offset is taken from the due date already
    assigned, so subtracting it gives the old reminder back. *)
Theorem Update_keeps_ReminderAt (now : time.Time) (title description : string)
    (dueDate : time.Time) (k : Task.t) :
  time.minDuration < dueDate - Task.ReminderAt k <= time.maxDuration ->
  Task.ReminderAt (Task.Update now title description dueDate k) = Task.ReminderAt k.
Proof.
  intros Hrange. unfold Task.Update. simpl.
  rewrite Sub_exact by lia.
  unfold time.neg, time.Add.
  rewrite wrap64_id; [lia |].
  unfold time.minDuration, time.maxDuration in *. lia.
Qed.

Lemma Update_keeps_ReminderAt_witness :
  Task.ReminderAt (Task.Update 9 "Pay rent" "by transfer" 90000000000000 rent)
  = Task.ReminderAt rent.
Proof.
  apply (Update_keeps_ReminderAt 9 "Pay rent" "by transfer" 90000000000000 rent).
  vm_compute. split; [reflexivity | discriminate].
Defined.

(** C8 as stated fails: with a new due date 400 years after the old
    reminder time, [Sub] saturates at [maxDuration] and the reminder moves
    to the new due date minus [maxDuration]. *)
Lemma Update_moves_ReminderAt :
  Task.ReminderAt (Task.Update 9 "Pay rent" "landlord" 12614400000000000000 rent)
  <> Task.ReminderAt rent.
Proof. vm_compute. discriminate. Qed.

(** ** Tags *)

Lemma hasTag_false (tag : string) (tags : list string) :
  hasTag tag tags = false -> ~ In tag tags.
Proof.
  induction tags as [| x rest IH]; simpl; intros H.
  - tauto.
  - destruct (String.eqb_spec x tag) as [-> | Hne]; [discriminate |].
    intros [Heq | Hin]; [congruence | exact (IH H Hin)].
Qed.

Lemma indexOf_lookup {A : Type} (p : A -> bool) (l : list A) (i : nat) :
  indexOf p l = Some i ->
  exists x, l !! i = Some x /\ p x = true
            /\ forall j y, (j < i)%nat -> l !! j = Some y -> p y = false.
Proof.
  revert i. induction l as [| a rest IH]; simpl; intros i H; [discriminate |].
  destruct (p a) eqn:Ea.
  - injection H as <-. exists a. split; [reflexivity |]. split; [exact Ea |].
    intros j y Hj. lia.
  - destruct (indexOf p rest) as [i' |] eqn:Ei; [| discriminate].
    injection H as <-. destruct (IH i' eq_refl) as (x & Hx & Hpx & Hbefore).
    exists x. split; [exact Hx |]. split; [exact Hpx |].
    intros [| j] y Hj Hy; simpl in Hy.
    + injection Hy as <-. exact Ea.
    + apply (Hbefore j y); [lia | exact Hy].
Qed.

Lemma indexOf_None {A : Type} (p : A -> bool) (l : list A) :
  indexOf p l = None <-> forall y, In y l -> p y = false.
Proof.
  induction l as [| a rest IH]; simpl.
  - split; [intros _ y [] | reflexivity].
  - destruct (p a) eqn:Ea.
    + split; [discriminate |]. intros H. rewrite (H a) in Ea by auto. discriminate.
    + destruct (indexOf p rest) as [i |].
      * split; [discriminate |]. intros H.
        assert (Hnone : Some i = None) by (apply IH; intros y Hy; apply H; auto).
        discriminate.
      * split; [| reflexivity]. intros _ y [<- | Hy]; [exact Ea |].
        apply IH; [reflexivity | exact Hy].
Qed.

(** Cutting one position out of a slice keeps it free of duplicates. *)
Lemma NoDup_cut {A : Type} (l : list A) (i : nat) :
  List.NoDup l -> List.NoDup (firstn i l ++ skipn (S i) l).
Proof.
  intros Hnd. destruct (l !! i) as [x |] eqn:Hi.
  - rewrite <- (take_drop_middle l i x Hi) in Hnd.
    exact (List.NoDup_remove_1 _ _ _ Hnd).
  - apply lookup_ge_None in Hi.
    rewrite firstn_all2 by lia. rewrite skipn_all2 by lia.
    rewrite app_nil_r. exact Hnd.
Qed.

Lemma NoDup_snoc {A : Type} (l : list A) (x : A) :
  List.NoDup l -> ~ In x l -> List.NoDup (l ++ [x]).
Proof.
  intros Hnd Hx. apply NoDup_ListNoDup. apply NoDup_ListNoDup in Hnd.
  apply NoDup_app. split; [exact Hnd |].
  split; [| apply NoDup_singleton].
  intros y Hy Hy'. apply list_elem_of_In in Hy. apply list_elem_of_In in Hy'.
  destruct Hy' as [<- | []]. exact (Hx Hy).
Qed.

Lemma Note_AddTag_NoDup (now : time.Time) (tag : string) (n : Note.t) :
  List.NoDup (Note.Tags n) -> List.NoDup (Note.Tags (Note.AddTag now tag n)).
Proof.
  intros Hnd. unfold Note.AddTag.
  destruct (hasTag tag (Note.Tags n)) eqn:E; [exact Hnd |].
  simpl. apply NoDup_snoc; [exact Hnd | exact (hasTag_false _ _ E)].
Qed.

Lemma Note_RemoveTag_NoDup (now : time.Time) (tag : string) (n : Note.t) :
  List.NoDup (Note.Tags n) -> List.NoDup (Note.Tags (Note.RemoveTag now tag n)).
Proof.
  intros Hnd. unfold Note.RemoveTag.
  destruct (tagIndex tag (Note.Tags n)); [| exact Hnd].
  simpl. apply NoDup_cut. exact Hnd.
Qed.

Lemma Task_AddTag_NoDup (now : time.Time) (tag : string) (k : Task.t) :
  List.NoDup (Task.Tags k) -> List.NoDup (Task.Tags (Task.AddTag now tag k)).
Proof.
  intros Hnd. unfold Task.AddTag.
  destruct (hasTag tag (Task.Tags k)) eqn:E; [exact Hnd |].
  simpl. apply NoDup_snoc; [exact Hnd | exact (hasTag_false _ _ E)].
Qed.

(** C7 at [Task.RemoveTag].  On a task tagged [home; bills], without
    duplicates, removing [home] yields [home; bills; bills]: the tag is
    still there and [bills] is now listed twice.  ([Note.AddTag],
    [Note.RemoveTag] and [Task.AddTag] keep tag lists free of duplicates:
    the three lemmas above.) *)
Theorem Task_RemoveTag_duplicates :
  let k := Task.AddTag 3 "bills" (Task.AddTag 2 "home" rent) in
  List.NoDup (Task.Tags k)
  /\ Task.Tags (Task.RemoveTag 4 "home" k) = ["home"; "bills"; "bills"]
  /\ ~ List.NoDup (Task.Tags (Task.RemoveTag 4 "home" k)).
Proof.
  intros k. split.
  - apply Task_AddTag_NoDup. apply Task_AddTag_NoDup. simpl. apply List.NoDup_nil.
  - split; [reflexivity |].
    change (~ List.NoDup ["home"; "bills"; "bills"]).
    intros Hnd. inversion Hnd as [| x l Hx Hnd' Heq]; subst.
    inversion Hnd' as [| x l Hx' Hnd'' Heq]; subst.
    apply Hx'. left. reflexivity.
Qed.

(** ** The store: loops over the persisted list *)

Lemma collect_filter {A : Type} (keep : A -> bool) (l : list A) :
  collect keep l = List.filter keep l.
Proof.
  unfold collect.
  assert (Hgen : forall acc,
    fold_left (fun result x => if keep x then result ++ [x] else result) l acc
    = acc ++ List.filter keep l).
  { induction l as [| a rest IH]; intros acc; simpl.
    - rewrite app_nil_r. reflexivity.
    - rewrite IH. destruct (keep a); [| reflexivity].
      rewrite <- app_assoc. reflexivity. }
  rewrite Hgen. reflexivity.
Qed.

Lemma indexOf_first {A : Type} (p : A -> bool) (pre : list A) (x : A) (post : list A) :
  p x = true -> (forall y, In y pre -> p y = false) ->
  indexOf p (pre ++ x :: post) = Some (length pre).
Proof.
  intros Hx. induction pre as [| a pre IH]; simpl; intros Hpre.
  - rewrite Hx. reflexivity.
  - rewrite (Hpre a) by auto. rewrite IH by auto. reflexivity.
Qed.

Lemma insert_middle {A : Type} (pre : list A) (old x : A) (post : list A) :
  <[length pre := x]> (pre ++ old :: post) = pre ++ x :: post.
Proof. induction pre as [| a pre IH]; simpl; [reflexivity | f_equal; exact IH]. Qed.




(** ** The store: running its methods *)

Ltac run_store :=
  unfold SaveNote, SaveTask, DeleteNote, DeleteTask, GetAllNotes, GetAllTasks,
    GetTasksDueBefore, GetTasksWithRemindersBy, loadNotes, loadTasks,
    saveNotes, saveTasks, bind, nextRead, nextWrite, getNotesFile, getTasksFile,
    putNotesFile, putTasksFile,
    os_WriteFile, readDoc, ret, fail in *;
  simpl in *.

Ltac case_script :=
  repeat match goal with
    | o : ReadOutcome |- _ => destruct o; simpl in *
    | o : WriteOutcome |- _ => destruct o; simpl in *
    | H : (_, _) = (_, _) |- _ => inversion H; clear H; subst; simpl in *
    | H : Some _ = Some _ |- _ => inversion H; clear H; subst; simpl in *
    | H : Ok _ = Err _ |- _ => discriminate H
    | H : Err _ = Ok _ |- _ => discriminate H
    | H : None = Some _ |- _ => discriminate H
    | H : false = true |- _ => discriminate H
    | H : _ && _ = true |- _ => apply andb_prop in H; destruct H
    | H : context [match indexOf ?p ?l with _ => _ end] |- _ =>
        destruct (indexOf p l); simpl in *
    end.

Lemma loadTasks_Ok (s s' : FileStorage) (l r : list Task.t) :
  records (tasksFile s) = Some l -> loadTasks s = (Ok r, s') ->
  r = l /\ tasksFile s' = Doc l /\ notesFile s' = notesFile s.
Proof.
  destruct s as [nf tf rs ws]. simpl. intros Hl Hrun.
  destruct tf as [| l0 |]; simpl in Hl; [| | discriminate].
  - destruct ws as [| o ws]; run_store; case_script; auto.
  - destruct rs as [| o rs]; run_store; case_script; auto.
Qed.

Lemma loadNotes_Ok (s s' : FileStorage) (l r : list Note.t) :
  records (notesFile s) = Some l -> loadNotes s = (Ok r, s') ->
  r = l /\ notesFile s' = Doc l /\ tasksFile s' = tasksFile s.
Proof.
  destruct s as [nf tf rs ws]. simpl. intros Hl Hrun.
  destruct nf as [| l0 |]; simpl in Hl; [| | discriminate].
  - destruct ws as [| o ws]; run_store; case_script; auto.
  - destruct rs as [| o rs]; run_store; case_script; auto.
Qed.

Lemma saveTasks_Ok (s s' : FileStorage) (l : list Task.t) :
  saveTasks l s = (Ok tt, s') -> tasksFile s' = Doc l /\ notesFile s' = notesFile s.
Proof.
  destruct s as [nf tf rs ws]. intros Hrun.
  destruct ws as [| o ws]; run_store; case_script; auto.
Qed.

Lemma saveNotes_Ok (s s' : FileStorage) (l : list Note.t) :
  saveNotes l s = (Ok tt, s') -> notesFile s' = Doc l /\ tasksFile s' = tasksFile s.
Proof.
  destruct s as [nf tf rs ws]. intros Hrun.
  destruct ws as [| o ws]; run_store; case_script; auto.
Qed.

Lemma SaveTask_Ok (task : Task.t) (s s' : FileStorage) (l : list Task.t) :
  records (tasksFile s) = Some l -> SaveTask task s = (Ok tt, s') ->
  tasksFile s' = Doc (upsert (sameTask (Task.ID task)) task l)
  /\ notesFile s' = notesFile s.
Proof.
  intros Hl Hrun. unfold SaveTask, bind in Hrun.
  destruct (loadTasks s) as [[r | e] s1] eqn:Hload; [| discriminate].
  destruct (loadTasks_Ok s s1 l r Hl Hload) as (-> & _ & Hn1).
  destruct (saveTasks_Ok _ _ _ Hrun) as [Ht Hn]. split; [exact Ht | congruence].
Qed.

Lemma SaveNote_Ok (note : Note.t) (s s' : FileStorage) (l : list Note.t) :
  records (notesFile s) = Some l -> SaveNote note s = (Ok tt, s') ->
  notesFile s' = Doc (upsert (sameNote (Note.ID note)) note l)
  /\ tasksFile s' = tasksFile s.
Proof.
  intros Hl Hrun. unfold SaveNote, bind in Hrun.
  destruct (loadNotes s) as [[r | e] s1] eqn:Hload; [| discriminate].
  destruct (loadNotes_Ok s s1 l r Hl Hload) as (-> & _ & Hn1).
  destruct (saveNotes_Ok _ _ _ Hrun) as [Ht Hn]. split; [exact Ht | congruence].
Qed.



Lemma loadTasks_total (s : FileStorage) (l : list Task.t) :
  records (tasksFile s) = Some l -> faultFree s ->
  exists s', loadTasks s = (Ok l, s').
Proof.
  destruct s as [nf tf rs ws]. unfold faultFree. simpl. intros Hl [-> ->].
  destruct tf; [| | discriminate]; inversion Hl; subst; eexists; reflexivity.
Qed.



(** C6.  On a store whose tasks file holds [l], [GetTasksDueBefore time]
    succeeds when every system call is answered, and whenever it succeeds
    it returns, in file order, exactly the tasks of [l] due strictly before
    [time] and not Completed; no Completed task is ever in the result. *)
Theorem GetTasksDueBefore_exact (time : time.Time) (s : FileStorage)
    (l : list Task.t) :
  records (tasksFile s) = Some l ->
  (faultFree s -> fst (GetTasksDueBefore time s) = Ok (List.filter (dueBefore time) l))
  /\ (forall r s', GetTasksDueBefore time s = (Ok r, s') ->
        r = List.filter (dueBefore time) l
        /\ (forall x, In x r <->
                      In x l /\ Task.DueDate x < time
                      /\ Task.Status x <> TaskStatusCompleted)
        /\ (forall x, In x r -> Task.Status x <> TaskStatusCompleted)).
Proof.
  intros Hl. split.
  - intros Hff. destruct (loadTasks_total s l Hl Hff) as [s1 Hload].
    unfold GetTasksDueBefore, bind. rewrite Hload. simpl.
    rewrite collect_filter. reflexivity.
  - intros r s' Hrun. unfold GetTasksDueBefore, bind in Hrun.
    destruct (loadTasks s) as [[r0 | e] s1] eqn:Hload; [| discriminate].
    destruct (loadTasks_Ok s s1 l r0 Hl Hload) as (-> & _ & _).
    unfold ret in Hrun. inversion Hrun; subst. clear Hrun.
    rewrite collect_filter.
    assert (Hmem : forall x, In x (List.filter (dueBefore time) l) <->
              In x l /\ Task.DueDate x < time /\ Task.Status x <> TaskStatusCompleted).
    { intros x. rewrite filter_In. unfold dueBefore, time.Before.
      rewrite andb_true_iff, Z.ltb_lt, negb_true_iff, isCompleted_false. tauto. }
    split; [reflexivity |]. split; [exact Hmem |].
    intros x Hx. apply Hmem in Hx. tauto.
Qed.

Lemma GetTasksDueBefore_exact_witness :
  records (tasksFile disk) = Some [rent; taxes]
  /\ GetTasksDueBefore 8000000000000 disk = (Ok [rent], disk)
  /\ [rent] = List.filter (dueBefore 8000000000000) [rent; taxes]
  /\ (forall x, In x [rent] <->
                In x [rent; taxes] /\ Task.DueDate x < 8000000000000
                /\ Task.Status x <> TaskStatusCompleted)
  /\ (forall x, In x [rent] -> Task.Status x <> TaskStatusCompleted).
Proof.
  split; [reflexivity |]. split; [reflexivity |].
  destruct (GetTasksDueBefore_exact 8000000000000 disk [rent; taxes] eq_refl)
    as [_ Hexact].
  exact (Hexact [rent] disk eq_refl).
Defined.

(** C2 (amended).  A [SaveNote], [SaveTask], [DeleteNote] or [DeleteTask]
    that fails with a PersistenceError while no write fails after the file
    was truncated leaves the collection's file as it was (a missing file
    may have been created as the empty container by the load) and does not
    touch the other collection's file. *)
Theorem failed_call_leaves_file (s s' : FileStorage) (e : error) :
  noTornWrite s ->
  isPersistenceError e = true ->
  ((exists note, SaveNote note s = (Err e, s'))
   \/ (exists id, DeleteNote id s = (Err e, s')) ->
   intact (notesFile s) (notesFile s') /\ tasksFile s' = tasksFile s)
  /\ ((exists task, SaveTask task s = (Err e, s'))
      \/ (exists id, DeleteTask id s = (Err e, s')) ->
      intact (tasksFile s) (tasksFile s') /\ notesFile s' = notesFile s).
Proof.
  unfold noTornWrite, intact. destruct s as [nf tf rs ws]. simpl.
  intros Hclean Hpers. split.
  - intros [[note Hrun] | [id Hrun]];
      destruct nf as [| l |]; destruct rs as [| o rs];
      destruct ws as [| o1 [| o2 ws]];
      run_store; case_script; auto; discriminate.
  - intros [[task Hrun] | [id Hrun]];
      destruct tf as [| l |]; destruct rs as [| o rs];
      destruct ws as [| o1 [| o2 ws]];
      run_store; case_script; auto; discriminate.
Qed.

Lemma failed_call_leaves_file_witness :
  fst (SaveTask rentPaid diskNoWrite) = Err ErrWrite
  /\ tasksFile (snd (SaveTask rentPaid diskNoWrite)) = Doc [rent; taxes]
  /\ notesFile (snd (SaveTask rentPaid diskNoWrite)) = Doc [groceries; recipe].
Proof.
  split; [reflexivity |].
  destruct (failed_call_leaves_file diskNoWrite (snd (SaveTask rentPaid diskNoWrite))
              ErrWrite eq_refl eq_refl) as [_ HT].
  destruct HT as [Hfile Hnotes].
  - left. exists rentPaid. reflexivity.
  - split; [| exact Hnotes].
    destruct Hfile as [Hsame | [Habs _]]; [exact Hsame | discriminate Habs].
Defined.

(** C2 as stated fails: the store overwrites the file in place.  When the
    write of [SaveTask] stops part-way, the call fails with a
    PersistenceError, the tasks file is left torn, and the tasks that were
    durable before can no longer be read. *)
Lemma SaveTask_torn_write :
  fst (SaveTask rentPaid diskTornWrite) = Err ErrWrite
  /\ isPersistenceError ErrWrite = true
  /\ tasksFile diskTornWrite = Doc [rent; taxes]
  /\ tasksFile (snd (SaveTask rentPaid diskTornWrite)) = Torn
  /\ fst (GetAllTasks (snd (SaveTask rentPaid diskTornWrite))) = Err ErrParse.
Proof. repeat split; reflexivity. Qed.

(** ** The scheduler: events *)

Lemma notifyCount_app (id : TaskID) (evs1 evs2 : list Event) :
  notifyCount id (evs1 ++ evs2) = (notifyCount id evs1 + notifyCount id evs2)%nat.
Proof. unfold notifyCount. rewrite List.filter_app, List.length_app. reflexivity. Qed.

Lemma notifyCount_pair (id i : TaskID) (sentAt : time.Time) (task : Task.t) :
  notifyCount id [EvRecord i sentAt; EvNotify task]
  = if String.eqb (Task.ID task) id then 1%nat else 0%nat.
Proof. unfold notifyCount. simpl. destruct (String.eqb (Task.ID task) id); reflexivity. Qed.

Lemma paired_app (evs1 evs2 : list Event) :
  paired evs1 -> paired evs2 -> paired (evs1 ++ evs2).
Proof.
  intros H1 H2. induction H1 as [| sentAt task evs _ IH]; simpl.
  - exact H2.
  - apply paired_cons. exact IH.
Qed.

Lemma paired_no_log (evs : list Event) :
  paired evs -> forall ev, In ev evs -> isLog ev = false.
Proof.
  intros Hp. induction Hp as [| sentAt task evs _ IH]; intros ev Hin.
  - destruct Hin.
  - destruct Hin as [<- | [<- | Hin]]; [reflexivity | reflexivity | exact (IH ev Hin)].
Qed.


(** ** The scheduler: one iteration of the loop *)

Lemma remind_skip (now : time.Time) (r : ReminderService) (task : Task.t) :
  shouldSend now (sentReminders r) (Task.ID task) = false -> remind now r task = r.
Proof. intros H. unfold remind. rewrite H. reflexivity. Qed.

Lemma remind_fire (now : time.Time) (r : ReminderService) (task : Task.t) :
  shouldSend now (sentReminders r) (Task.ID task) = true ->
  let task' := Task.UpdateStatus (tickTime r) task in
  store (remind now r task) = snd (SaveTask task' (store r))
  /\ sentReminders (remind now r task) = <[Task.ID task := now]> (sentReminders r)
  /\ clock (remind now r task) = clock r
  /\ trace (remind now r task)
     = trace r ++ [EvRecord (Task.ID task) now; EvNotify task'].
Proof.
  intros H. unfold remind. rewrite H. simpl.
  destruct (SaveTask (Task.UpdateStatus (tickTime r) task) (store r)) as [res st].
  simpl. auto.
Qed.

Lemma remind_other (now : time.Time) (id : TaskID) (r : ReminderService) (task : Task.t) :
  Task.ID task <> id ->
  notifyCount id (trace (remind now r task)) = notifyCount id (trace r)
  /\ sentReminders (remind now r task) !! id = sentReminders r !! id.
Proof.
  intros Hne.
  destruct (shouldSend now (sentReminders r) (Task.ID task)) eqn:E.
  - destruct (remind_fire now r task E) as (_ & Hsent & _ & Htr).
    rewrite Htr, Hsent, notifyCount_app. split.
    + rewrite notifyCount_pair, UpdateStatus_ID.
      apply String.eqb_neq in Hne. rewrite Hne. lia.
    + apply lookup_insert_ne. exact Hne.
  - rewrite (remind_skip now r task E). auto.
Qed.

Lemma remind_same (now : time.Time) (r : ReminderService) (task : Task.t) :
  shouldSend now (sentReminders r) (Task.ID task) = true ->
  notifyCount (Task.ID task) (trace (remind now r task))
  = S (notifyCount (Task.ID task) (trace r))
  /\ sentReminders (remind now r task) !! Task.ID task = Some now.
Proof.
  intros E. destruct (remind_fire now r task E) as (_ & Hsent & _ & Htr).
  rewrite Htr, Hsent, notifyCount_app. split.
  - rewrite notifyCount_pair, UpdateStatus_ID, String.eqb_refl. lia.
  - apply lookup_insert_eq.
Qed.

Lemma remind_trace (now : time.Time) (r : ReminderService) (task : Task.t) :
  exists evs, trace (remind now r task) = trace r ++ evs /\ paired evs.
Proof.
  destruct (shouldSend now (sentReminders r) (Task.ID task)) eqn:E.
  - destruct (remind_fire now r task E) as (_ & _ & _ & Htr).
    eexists. split; [exact Htr |].
    rewrite <- (UpdateStatus_ID (tickTime r) task).
    apply paired_cons. apply paired_nil.
  - rewrite (remind_skip now r task E). exists []. rewrite app_nil_r.
    split; [reflexivity | apply paired_nil].
Qed.

(** ** The scheduler: the loop over the due tasks *)

Lemma loop_trace (now : time.Time) (tasks : list Task.t) (r : ReminderService) :
  exists evs, trace (fold_left (remind now) tasks r) = trace r ++ evs /\ paired evs.
Proof.
  revert r. induction tasks as [| task tasks IH]; intros r; simpl.
  - exists []. rewrite app_nil_r. split; [reflexivity | apply paired_nil].
  - destruct (remind_trace now r task) as (evs1 & H1 & Hp1).
    destruct (IH (remind now r task)) as (evs2 & H2 & Hp2).
    exists (evs1 ++ evs2). rewrite H2, H1, app_assoc.
    split; [reflexivity | exact (paired_app _ _ Hp1 Hp2)].
Qed.

(** A task reminded less than the window ago is passed over, however often
    its identifier comes up. *)
Lemma loop_quiet (now : time.Time) (id : TaskID) (last : time.Time)
    (tasks : list Task.t) (r : ReminderService) :
  sentReminders r !! id = Some last ->
  (reNotifyWindow <? time.Sub now last) = false ->
  notifyCount id (trace (fold_left (remind now) tasks r)) = notifyCount id (trace r)
  /\ sentReminders (fold_left (remind now) tasks r) !! id = Some last.
Proof.
  intros Hlast Hwin. revert r Hlast.
  induction tasks as [| task tasks IH]; intros r Hlast; simpl; [auto |].
  destruct (String.eqb_spec (Task.ID task) id) as [Heq | Hne].
  - rewrite remind_skip; [exact (IH r Hlast) |].
    unfold shouldSend. rewrite Heq, Hlast. exact Hwin.
  - destruct (remind_other now id r task Hne) as [Hc Hs].
    destruct (IH (remind now r task)) as [Hc' Hs']; [congruence |].
    split; [congruence | exact Hs'].
Qed.

(** An eligible task is notified once: at the first task of its
    identifier. *)
Lemma loop_once (now : time.Time) (id : TaskID) (tasks : list Task.t)
    (r : ReminderService) :
  shouldSend now (sentReminders r) id = true ->
  Exists (fun x => Task.ID x = id) tasks ->
  notifyCount id (trace (fold_left (remind now) tasks r)) = S (notifyCount id (trace r))
  /\ sentReminders (fold_left (remind now) tasks r) !! id = Some now.
Proof.
  revert r. induction tasks as [| task tasks IH]; intros r Hsend Hex; simpl.
  - inversion Hex.
  - destruct (String.eqb_spec (Task.ID task) id) as [Heq | Hne].
    + subst id. destruct (remind_same now r task Hsend) as [Hc Hs].
      destruct (loop_quiet now (Task.ID task) now tasks (remind now r task) Hs)
        as [Hc' Hs'].
      * rewrite Sub_self. reflexivity.
      * split; [congruence | exact Hs'].
    + destruct (remind_other now id r task Hne) as [Hc Hs].
      destruct (IH (remind now r task)) as [Hc' Hs'].
      * unfold shouldSend in *. rewrite Hs. exact Hsend.
      * inversion Hex; subst; [contradiction | assumption].
      * split; [congruence | exact Hs'].
Qed.

(** ** The scheduler on a store that answers every call *)

Lemma SaveTask_faultFree (task : Task.t) (st : FileStorage) (l : list Task.t) :
  faultFree st -> tasksFile st = Doc l ->
  exists st', SaveTask task st = (Ok tt, st')
              /\ faultFree st'
              /\ tasksFile st' = Doc (upsert (sameTask (Task.ID task)) task l).
Proof.
  destruct st as [nf tf rs ws]. unfold faultFree. simpl.
  intros [-> ->] ->. eexists. split; [reflexivity |]. simpl. auto.
Qed.

Lemma query_faultFree (now : time.Time) (st : FileStorage) (l : list Task.t) :
  faultFree st -> tasksFile st = Doc l ->
  GetTasksWithRemindersBy now st = (Ok (List.filter (reminderBefore now) l), st).
Proof.
  destruct st as [nf tf rs ws]. unfold faultFree. simpl.
  intros [-> ->] ->. rewrite <- collect_filter. reflexivity.
Qed.

Lemma upsert_Exists {A : Type} (Q : A -> Prop) (same : A -> bool) (x : A) (l : list A) :
  Exists Q l ->
  (forall old, same old = true -> Q old -> Q x) ->
  Exists Q (upsert same x l).
Proof.
  intros Hex Hrepl. unfold upsert.
  destruct (indexOf same l) as [i |] eqn:Hi.
  - destruct (indexOf_lookup same l i Hi) as (old & Hold & Hsame & _).
    apply List.Exists_exists in Hex. destruct Hex as (y & Hy & HQ).
    apply (proj2 (list_elem_of_In _ _)) in Hy.
    apply (proj1 (list_elem_of_lookup _ _)) in Hy. destruct Hy as [j Hj].
    apply List.Exists_exists. destruct (Nat.eq_dec i j) as [<- | Hne].
    + exists x. split.
      * apply list_elem_of_In, list_elem_of_lookup. exists i.
        apply list_lookup_insert_eq. exact (lookup_lt_Some _ _ _ Hold).
      * apply (Hrepl old Hsame). congruence.
    + exists y. split; [| exact HQ].
      apply list_elem_of_In, list_elem_of_lookup. exists j.
      rewrite list_lookup_insert_ne by exact Hne. exact Hj.
  - apply Exists_app. left. exact Hex.
Qed.

Lemma UpdateStatus_reminderBefore (now tnow : time.Time) (task : Task.t) :
  reminderBefore now (Task.UpdateStatus tnow task) = reminderBefore now task.
Proof.
  unfold reminderBefore.
  rewrite UpdateStatus_ReminderAt, UpdateStatus_isCompleted. reflexivity.
Qed.

Lemma remind_stillDue (now : time.Time) (id : TaskID) (r : ReminderService)
    (task : Task.t) :
  stillDue now id (store r) -> reminderBefore now task = true ->
  stillDue now id (store (remind now r task)).
Proof.
  intros Hdue Htask.
  destruct (shouldSend now (sentReminders r) (Task.ID task)) eqn:E;
    [| rewrite (remind_skip now r task E); exact Hdue].
  destruct (remind_fire now r task E) as (Hst & _).
  destruct Hdue as (Hff & l & Hl & Hex).
  destruct (SaveTask_faultFree (Task.UpdateStatus (tickTime r) task) (store r) l Hff Hl)
    as (st' & Hrun & Hff' & Hl').
  rewrite Hst, Hrun. simpl. split; [exact Hff' |].
  eexists. split; [exact Hl' |]. apply upsert_Exists; [exact Hex |].
  intros old Hsame [Hid _]. unfold sameTask in Hsame.
  apply String.eqb_eq in Hsame. rewrite UpdateStatus_ID in *.
  split; [congruence |]. rewrite UpdateStatus_reminderBefore. exact Htask.
Qed.

Lemma loop_stillDue (now : time.Time) (id : TaskID) (tasks : list Task.t)
    (r : ReminderService) :
  stillDue now id (store r) ->
  Forall (fun x => reminderBefore now x = true) tasks ->
  stillDue now id (store (fold_left (remind now) tasks r)).
Proof.
  revert r. induction tasks as [| task tasks IH]; intros r Hdue Hall; simpl.
  - exact Hdue.
  - inversion Hall; subst. apply IH; [| assumption].
    apply remind_stillDue; assumption.
Qed.

Lemma reminderBefore_later (now now' : time.Time) (task : Task.t) :
  now <= now' -> reminderBefore now task = true -> reminderBefore now' task = true.
Proof.
  unfold reminderBefore, time.Before. intros Hle H.
  apply andb_true_iff in H. destruct H as [Hlt Hc]. apply Z.ltb_lt in Hlt.
  apply andb_true_iff. split; [apply Z.ltb_lt; lia | exact Hc].
Qed.

Lemma stillDue_later (now now' : time.Time) (id : TaskID) (st : FileStorage) :
  now <= now' -> stillDue now id st -> stillDue now' id st.
Proof.
  intros Hle (Hff & l & Hl & Hex). split; [exact Hff |].
  exists l. split; [exact Hl |].
  apply List.Exists_exists in Hex. destruct Hex as (x & Hx & Hid & Hrem).
  apply List.Exists_exists. exists x. split; [exact Hx |].
  split; [exact Hid | exact (reminderBefore_later now now' x Hle Hrem)].
Qed.

Lemma sweep_keeps (now last : time.Time) (id : TaskID) (sent : gmap string Z) :
  sent !! id = Some last -> ~ ledgerExpiry < time.Sub now last ->
  sweep now sent !! id = Some last.
Proof.
  intros Hlast Hfresh. unfold sweep.
  apply map_lookup_filter_Some_2; [exact Hlast | exact Hfresh].
Qed.

Lemma window_below_expiry (d : time.Duration) :
  (reNotifyWindow <? d) = false -> ~ ledgerExpiry < d.
Proof.
  intros H. apply Z.ltb_ge in H.
  assert (reNotifyWindow < ledgerExpiry) by (vm_compute; reflexivity). lia.
Qed.

(** One tick on a store that answers every call and holds a due task of
    identifier [id]: the Notifier is called for [id] once if [id] is
    eligible and not at all otherwise, each call right after the ledger
    write, and the task is still due afterwards. *)
Lemma tick_dedup (now : time.Time) (id : TaskID) (r : ReminderService) :
  stillDue now id (store r) ->
  stillDue now id (store (checkRemindersAt now r))
  /\ exists evs,
       trace (checkRemindersAt now r) = trace r ++ evs
       /\ paired evs
       /\ (shouldSend now (sentReminders r) id = true ->
           notifyCount id evs = 1%nat
           /\ sentReminders (checkRemindersAt now r) !! id = Some now)
       /\ (shouldSend now (sentReminders r) id = false ->
           notifyCount id evs = 0%nat).
Proof.
  intros Hdue. pose proof Hdue as (Hff & l & Hl & Hex).
  unfold checkRemindersAt. rewrite (query_faultFree now (store r) l Hff Hl).
  set (tasks := List.filter (reminderBefore now) l).
  set (r0 := withStore (store r) r).
  assert (Hall : Forall (fun x => reminderBefore now x = true) tasks).
  { apply List.Forall_forall. intros x Hx. apply filter_In in Hx. tauto. }
  assert (Hex' : Exists (fun x => Task.ID x = id) tasks).
  { apply List.Exists_exists in Hex. destruct Hex as (x & Hx & Hid & Hrem).
    apply List.Exists_exists. exists x. split; [| exact Hid].
    apply filter_In. auto. }
  split; [exact (loop_stillDue now id tasks r0 Hdue Hall) |].
  destruct (loop_trace now tasks r0) as (evs & Htr & Hp).
  exists evs. split; [exact Htr |]. split; [exact Hp |].
  assert (Hcount : notifyCount id (trace (fold_left (remind now) tasks r0))
                   = (notifyCount id (trace r0) + notifyCount id evs)%nat).
  { rewrite Htr. apply notifyCount_app. }
  split.
  - intros Hsend. destruct (loop_once now id tasks r0 Hsend Hex') as [Hc Hs].
    split; [lia |]. simpl. apply sweep_keeps; [exact Hs |].
    rewrite Sub_self. vm_compute. discriminate.
  - intros Hsend. unfold shouldSend in Hsend.
    destruct (sentReminders r !! id) as [last |] eqn:Hlast; [| discriminate].
    destruct (loop_quiet now id last tasks r0 Hlast Hsend) as [Hc _]. lia.
Qed.

(** ** The scheduler: the claims *)

(** C4 (amended).  On a store whose tasks file holds [l], the query of a
    tick succeeds when every system call is answered, and whenever it
    succeeds the tasks the tick iterates over are exactly the tasks of [l]
    that are not Completed and whose reminder time is strictly before the
    captured [now], in file order; the tick is the loop over these tasks
    followed by the sweep. *)
Theorem checkReminders_due_tasks (now : time.Time) (r : ReminderService)
    (l : list Task.t) :
  records (tasksFile (store r)) = Some l ->
  (faultFree (store r) -> dueTasks now r = Ok (List.filter (reminderBefore now) l))
  /\ (forall tasks, dueTasks now r = Ok tasks ->
        tasks = List.filter (reminderBefore now) l
        /\ (forall x, In x tasks <->
                      In x l /\ Task.ReminderAt x < now
                      /\ Task.Status x <> TaskStatusCompleted)
        /\ checkRemindersAt now r
           = sweepLedger now (fold_left (remind now) tasks (afterQuery now r))).
Proof.
  intros Hl. split.
  - intros Hff. destruct (loadTasks_total (store r) l Hl Hff) as [s1 Hload].
    unfold dueTasks, GetTasksWithRemindersBy, bind. rewrite Hload. simpl.
    rewrite collect_filter. reflexivity.
  - intros tasks Hdue. unfold dueTasks in Hdue.
    unfold checkRemindersAt, afterQuery.
    destruct (GetTasksWithRemindersBy now (store r)) as [res st] eqn:Hq.
    simpl in Hdue. subst res.
    unfold GetTasksWithRemindersBy, bind in Hq.
    destruct (loadTasks (store r)) as [[r0 | e] s1] eqn:Hload; [| discriminate].
    destruct (loadTasks_Ok (store r) s1 l r0 Hl Hload) as (-> & _ & _).
    unfold ret in Hq. inversion Hq; subst. clear Hq.
    rewrite collect_filter. split; [reflexivity |]. split; [| reflexivity].
    intros x. rewrite filter_In. unfold reminderBefore, time.Before.
    rewrite andb_true_iff, Z.ltb_lt, negb_true_iff, isCompleted_false. tauto.
Qed.

Lemma checkReminders_due_tasks_witness :
  records (tasksFile (store everyMinute)) = Some [rent; taxes]
  /\ dueTasks 4000000000000 everyMinute = Ok [rent]
  /\ [rent] = List.filter (reminderBefore 4000000000000) [rent; taxes]
  /\ (forall x, In x [rent] <->
                In x [rent; taxes] /\ Task.ReminderAt x < 4000000000000
                /\ Task.Status x <> TaskStatusCompleted)
  /\ checkRemindersAt 4000000000000 everyMinute
     = sweepLedger 4000000000000
         (fold_left (remind 4000000000000) [rent]
            (afterQuery 4000000000000 everyMinute)).
Proof.
  split; [reflexivity |]. split; [reflexivity |].
  destruct (checkReminders_due_tasks 4000000000000 everyMinute [rent; taxes] eq_refl)
    as [_ Hexact].
  exact (Hexact [rent] eq_refl).
Defined.

(** C4 as stated fails: a Pending task whose reminder time equals the
    captured [now] is stored, is not Completed and has its reminder at or
    before [now], yet the tick's query returns no task and the tick calls
    no Notifier. *)
Lemma reminder_at_now_is_skipped :
  tickTime atReminderTime = Task.ReminderAt rent
  /\ tasksFile (store atReminderTime) = Doc [rent; taxes]
  /\ Task.Status rent <> TaskStatusCompleted
  /\ Task.ReminderAt rent <= tickTime atReminderTime
  /\ dueTasks (tickTime atReminderTime) atReminderTime = Ok []
  /\ trace (checkReminders atReminderTime) = [].
Proof.
  split; [reflexivity |]. split; [reflexivity |]. split; [discriminate |].
  split; [vm_compute; discriminate |]. split; reflexivity.
Qed.

(** C10.  When the loop of a tick reaches an eligible task and [SaveTask]
    fails on its re-evaluated status, the iteration goes on regardless: the
    store is left as the failed call left it, the events of the whole tick
    contain the ledger write and the Notifier call for that task and no
    error log, and at the end of the tick the ledger holds [now] for the
    task. *)
Theorem save_failure_is_dropped (now : time.Time) (r : ReminderService)
    (pre post : list Task.t) (task : Task.t) (e : error) (st' : FileStorage) :
  dueTasks now r = Ok (pre ++ task :: post) ->
  shouldSend now (sentReminders (loopAfter now r pre)) (Task.ID task) = true ->
  SaveTask (Task.UpdateStatus (tickTime (loopAfter now r pre)) task)
    (store (loopAfter now r pre)) = (Err e, st') ->
  store (remind now (loopAfter now r pre) task) = st'
  /\ sentReminders (checkRemindersAt now r) !! Task.ID task = Some now
  /\ exists evs1 evs2,
       trace (checkRemindersAt now r)
       = trace r ++ evs1
         ++ [EvRecord (Task.ID task) now;
             EvNotify (Task.UpdateStatus (tickTime (loopAfter now r pre)) task)]
         ++ evs2
       /\ forall ev, In ev (trace (checkRemindersAt now r)) ->
                     In ev (trace r) \/ isLog ev = false.
Proof.
  intros Hdue Hsend Hsave.
  set (rk := loopAfter now r pre) in *.
  destruct (remind_fire now rk task Hsend) as (Hst & Hsent & _ & Htr).
  rewrite Hsave in Hst. simpl in Hst.
  assert (Htick : checkRemindersAt now r
                  = sweepLedger now (fold_left (remind now) post (remind now rk task))).
  { unfold checkRemindersAt, dueTasks in *.
    destruct (GetTasksWithRemindersBy now (store r)) as [res st] eqn:Hq.
    simpl in Hdue. subst res. rewrite fold_left_app. simpl.
    unfold rk, loopAfter, afterQuery. rewrite Hq. reflexivity. }
  destruct (loop_trace now pre (afterQuery now r)) as (evs1 & Htr1 & Hp1).
  destruct (loop_trace now post (remind now rk task)) as (evs2 & Htr2 & Hp2).
  fold (loopAfter now r pre) in Htr1. fold rk in Htr1.
  assert (Hs : sentReminders (remind now rk task) !! Task.ID task = Some now).
  { rewrite Hsent. apply lookup_insert_eq. }
  destruct (loop_quiet now (Task.ID task) now post (remind now rk task) Hs) as [_ Hkeep].
  { rewrite Sub_self. reflexivity. }
  assert (Hall : trace (checkRemindersAt now r)
                 = trace r ++ evs1
                   ++ [EvRecord (Task.ID task) now;
                       EvNotify (Task.UpdateStatus (tickTime rk) task)] ++ evs2).
  { rewrite Htick. simpl. rewrite Htr2, Htr, Htr1. simpl.
    rewrite <- !app_assoc. reflexivity. }
  split; [exact Hst |]. split.
  - rewrite Htick. simpl. apply sweep_keeps; [exact Hkeep |].
    rewrite Sub_self. vm_compute. discriminate.
  - exists evs1, evs2. split; [exact Hall |].
    intros ev Hin. rewrite Hall in Hin.
    apply in_app_or in Hin. destruct Hin as [Hin | Hin]; [left; exact Hin | right].
    apply in_app_or in Hin. destruct Hin as [Hin | Hin];
      [exact (paired_no_log evs1 Hp1 ev Hin) |].
    destruct Hin as [<- | [<- | Hin]]; [reflexivity | reflexivity |].
    exact (paired_no_log evs2 Hp2 ev Hin).
Qed.

Lemma save_failure_is_dropped_witness :
  Task.Status rent = TaskStatusPending
  /\ Task.Status
       (Task.UpdateStatus (tickTime (loopAfter 9500000000000 lateNoWrite [])) rent)
     = TaskStatusOverdue
  /\ SaveTask (Task.UpdateStatus (tickTime (loopAfter 9500000000000 lateNoWrite [])) rent)
       (store (loopAfter 9500000000000 lateNoWrite [])) = (Err ErrWrite, disk)
  /\ tasksFile (store (remind 9500000000000 (loopAfter 9500000000000 lateNoWrite []) rent))
     = Doc [rent; taxes]
  /\ sentReminders (checkRemindersAt 9500000000000 lateNoWrite) !! Task.ID rent
     = Some 9500000000000
  /\ exists evs1 evs2,
       trace (checkRemindersAt 9500000000000 lateNoWrite)
       = trace lateNoWrite ++ evs1
         ++ [EvRecord (Task.ID rent) 9500000000000;
             EvNotify (Task.UpdateStatus
                         (tickTime (loopAfter 9500000000000 lateNoWrite [])) rent)]
         ++ evs2
       /\ forall ev, In ev (trace (checkRemindersAt 9500000000000 lateNoWrite)) ->
                     In ev (trace lateNoWrite) \/ isLog ev = false.
Proof.
  split; [reflexivity |]. split; [reflexivity |]. split; [reflexivity |].
  destruct (save_failure_is_dropped 9500000000000 lateNoWrite [] [taxes] rent
              ErrWrite disk) as (Hst & Hled & Hev).
  - reflexivity.
  - vm_compute. reflexivity.
  - reflexivity.
  - split; [rewrite Hst; reflexivity |]. split; [exact Hled | exact Hev].
Defined.



(* ===================================================================== *)
(** * Further properties of the models *)
(* ===================================================================== *)

(** X1.  Nothing but completing a task takes it out of Overdue: every
    other method, among them [Update] with a due date in the future and
    [UpdateStatus] at any time, leaves an Overdue task Overdue. *)
Theorem overdue_is_sticky (now : time.Time) (m : Task.Method) (k : Task.t) :
  Task.Status k = TaskStatusOverdue ->
  m <> Task.mMarkInProgress -> m <> Task.mComplete ->
  Task.Status (Task.call now m k) = TaskStatusOverdue.
Proof.
  intros Hk Hm1 Hm2. destruct m; simpl; try exact Hk; try contradiction.
  - unfold Task.UpdateStatus. rewrite Hk. simpl.
    destruct (Task.IsOverDue now k); [reflexivity | exact Hk].
  - unfold Task.AddTag. destruct (hasTag tag (Task.Tags k)); exact Hk.
  - unfold Task.RemoveTag. destruct (tagIndex tag (Task.Tags k)); exact Hk.
Qed.

Lemma overdue_is_sticky_witness :
  Task.Status rentOverdue = TaskStatusOverdue
  /\ Task.Status
       (Task.call 8100000000000
          (Task.mUpdate "Pay rent" "next month" 90000000000000) rentOverdue)
     = TaskStatusOverdue.
Proof.
  split; [reflexivity |].
  apply (overdue_is_sticky 8100000000000
           (Task.mUpdate "Pay rent" "next month" 90000000000000) rentOverdue);
    [reflexivity | discriminate | discriminate].
Defined.

(** X2.  Re-evaluating the status again at the same or a later time
    absorbs the earlier evaluation: checking at [now] and then at [now']
    gives the task that a single check at [now'] gives. *)
Theorem UpdateStatus_later (now now' : time.Time) (k : Task.t) :
  now <= now' ->
  Task.UpdateStatus now' (Task.UpdateStatus now k) = Task.UpdateStatus now' k.
Proof.
  intros Hle. unfold Task.UpdateStatus, Task.IsOverDue, time.After.
  destruct (isCompleted (Task.Status k)) eqn:Ec; [rewrite Ec; reflexivity |].
  simpl. destruct (Z.ltb_spec (Task.DueDate k) now) as [Hdue | Hdue]; simpl.
  - destruct (Z.ltb_spec (Task.DueDate k) now') as [_ | Hdue']; [reflexivity | lia].
  - rewrite Ec. reflexivity.
Qed.

Lemma UpdateStatus_later_witness :
  7000000000000 <= 8000000000000
  /\ Task.UpdateStatus 8000000000000 (Task.UpdateStatus 7000000000000 rent)
     = Task.UpdateStatus 8000000000000 rent.
Proof.
  split; [vm_compute; discriminate |].
  apply (UpdateStatus_later 7000000000000 8000000000000 rent).
  vm_compute. discriminate.
Defined.

(** X3.  No method of a task or of a note changes the identifier or the
    creation time of its receiver. *)
Theorem methods_keep_identity :
  (forall (now : time.Time) (m : Task.Method) (k : Task.t),
      Task.ID (Task.call now m k) = Task.ID k
      /\ Task.CreatedAt (Task.call now m k) = Task.CreatedAt k)
  /\ (forall (now : time.Time) (m : Note.Method) (n : Note.t),
      Note.ID (Note.call now m n) = Note.ID n
      /\ Note.CreatedAt (Note.call now m n) = Note.CreatedAt n).
Proof.
  split.
  - intros now m k. destruct m; simpl; auto.
    + unfold Task.UpdateStatus. destruct (isCompleted (Task.Status k)); [auto |].
      destruct (Task.IsOverDue now k); auto.
    + unfold Task.AddTag. destruct (hasTag tag (Task.Tags k)); auto.
    + unfold Task.RemoveTag. destruct (tagIndex tag (Task.Tags k)); auto.
  - intros now m n. destruct m; simpl; auto.
    + unfold Note.AddTag. destruct (hasTag tag (Note.Tags n)); auto.
    + unfold Note.RemoveTag. destruct (tagIndex tag (Note.Tags n)); auto.
Qed.

(** X4.  [SetReminderPeriod] with a period whose negation is a Duration
    puts the reminder exactly that period before the due date and leaves
    the due date alone, so a non-negative period never puts the reminder
    after the due date; a new task has its reminder one hour before its due
    date. *)
Theorem SetReminderPeriod_lead (now : time.Time) (period : time.Duration) (k : Task.t) :
  time.minDuration < period <= time.maxDuration ->
  Task.ReminderAt (Task.SetReminderPeriod now period k) = Task.DueDate k - period
  /\ Task.DueDate (Task.SetReminderPeriod now period k) = Task.DueDate k
  /\ (0 <= period ->
      Task.ReminderAt (Task.SetReminderPeriod now period k)
      <= Task.DueDate (Task.SetReminderPeriod now period k))
  /\ (forall id title description dueDate,
        Task.ReminderAt (Task.NewTask id now title description dueDate)
        = dueDate - time.Hour).
Proof.
  intros Hp. unfold Task.SetReminderPeriod, time.Add, time.neg. simpl.
  rewrite wrap64_id by (unfold time.minDuration, time.maxDuration in *; lia).
  split; [lia |]. split; [reflexivity |]. split; [lia |].
  intros id title description dueDate. unfold time.Add. lia.
Qed.

Lemma SetReminderPeriod_lead_witness :
  Task.ReminderAt (Task.SetReminderPeriod 9 (2 * time.Hour) rent)
  = Task.DueDate rent - 2 * time.Hour.
Proof.
  apply (SetReminderPeriod_lead 9 (2 * time.Hour) rent).
  vm_compute. split; [reflexivity | discriminate].
Defined.



(** X6.  The completion key makes a task Completed exactly when it was
    not, and pressing it twice gives Completed to a task that was Completed
    and Pending to every other task: a task that was InProgress or Overdue
    comes back Pending. *)
Theorem toggleTask_twice (now now' : time.Time) (k : Task.t) :
  isCompleted (Task.Status (toggleTask now k)) = negb (isCompleted (Task.Status k))
  /\ Task.Status (toggleTask now' (toggleTask now k))
     = (if isCompleted (Task.Status k) then TaskStatusCompleted else TaskStatusPending)
  /\ Task.ID (toggleTask now k) = Task.ID k
  /\ Task.DueDate (toggleTask now k) = Task.DueDate k
  /\ Task.ReminderAt (toggleTask now k) = Task.ReminderAt k.
Proof.
  unfold toggleTask. destruct (isCompleted (Task.Status k)) eqn:E; simpl;
    repeat split; reflexivity.
Qed.

(** ** Tags, continued *)

Lemma hasTag_true (tag : string) (tags : list string) :
  hasTag tag tags = true <-> In tag tags.
Proof.
  induction tags as [| x rest IH]; simpl.
  - split; [discriminate | tauto].
  - destruct (String.eqb_spec x tag) as [-> | Hne].
    + split; auto.
    + rewrite IH. split; [auto |]. intros [Heq | Hin]; [congruence | exact Hin].
Qed.

Lemma tagIndex_split (tag : string) (tags : list string) (i : nat) :
  tagIndex tag tags = Some i ->
  tags = firstn i tags ++ tag :: skipn (S i) tags.
Proof.
  unfold tagIndex. intros Hi.
  destruct (indexOf_lookup _ tags i Hi) as (x & Hx & Heq & _).
  apply String.eqb_eq in Heq. subst x.
  symmetry. exact (take_drop_middle tags i tag Hx).
Qed.

Lemma tagIndex_None (tag : string) (tags : list string) :
  tagIndex tag tags = None <-> ~ In tag tags.
Proof.
  unfold tagIndex. rewrite indexOf_None. split.
  - intros H Hin. specialize (H tag Hin). rewrite String.eqb_refl in H. discriminate.
  - intros H y Hy. apply String.eqb_neq. intros ->. exact (H Hy).
Qed.

(** X7.  [AddTag], on a note and on a task alike: afterwards the tags are
    the old tags and [tag]; a tag already present leaves the record exactly
    as it was (no new update time), a new tag goes to the end of the list
    and the update time is set. *)
Theorem AddTag_membership (now : time.Time) (tag : string) :
  (forall n : Note.t,
      (forall t', In t' (Note.Tags (Note.AddTag now tag n)) <-> In t' (Note.Tags n) \/ t' = tag)
      /\ (In tag (Note.Tags n) -> Note.AddTag now tag n = n)
      /\ (~ In tag (Note.Tags n) ->
          Note.Tags (Note.AddTag now tag n) = Note.Tags n ++ [tag]
          /\ Note.UpdatedAt (Note.AddTag now tag n) = now))
  /\ (forall k : Task.t,
      (forall t', In t' (Task.Tags (Task.AddTag now tag k)) <-> In t' (Task.Tags k) \/ t' = tag)
      /\ (In tag (Task.Tags k) -> Task.AddTag now tag k = k)
      /\ (~ In tag (Task.Tags k) ->
          Task.Tags (Task.AddTag now tag k) = Task.Tags k ++ [tag]
          /\ Task.UpdatedAt (Task.AddTag now tag k) = now)).
Proof.
  split.
  - intros n. unfold Note.AddTag.
    destruct (hasTag tag (Note.Tags n)) eqn:E.
    + apply hasTag_true in E. split; [| split].
      * intros t'. split; [auto |]. intros [H | ->]; assumption.
      * reflexivity.
      * intros Hn. contradiction.
    + apply hasTag_false in E. simpl. split; [| split].
      * intros t'. rewrite in_app_iff. simpl. split.
        -- intros [H | [<- | []]]; auto.
        -- intros [H | ->]; auto.
      * intros Hin. contradiction.
      * auto.
  - intros k. unfold Task.AddTag.
    destruct (hasTag tag (Task.Tags k)) eqn:E.
    + apply hasTag_true in E. split; [| split].
      * intros t'. split; [auto |]. intros [H | ->]; assumption.
      * reflexivity.
      * intros Hn. contradiction.
    + apply hasTag_false in E. simpl. split; [| split].
      * intros t'. rewrite in_app_iff. simpl. split.
        -- intros [H | [<- | []]]; auto.
        -- intros [H | ->]; auto.
      * intros Hin. contradiction.
      * auto.
Qed.

Lemma AddTag_membership_witness :
  Task.Tags (Task.AddTag 2 "home" rent) = ["home"]
  /\ Task.AddTag 3 "home" (Task.AddTag 2 "home" rent) = Task.AddTag 2 "home" rent.
Proof.
  split.
  - destruct (AddTag_membership 2 "home") as [_ HT].
    destruct (HT rent) as (_ & _ & Hnew).
    destruct Hnew as [Htags _]; [intros [] | exact Htags].
  - destruct (AddTag_membership 3 "home") as [_ HT].
    destruct (HT (Task.AddTag 2 "home" rent)) as (_ & Hsame & _).
    apply Hsame. left. reflexivity.
Defined.

(** X8.  [Note.RemoveTag] takes out the first occurrence of the tag and
    nothing else: the tag occurs once less (and not at all afterwards when
    it occurred once), every other tag occurs as often as before, the
    other tags keep their order, and a note without the tag is left exactly
    as it was.  Removing a tag that was just added to a note without it
    gives the old tag list back. *)
Theorem Note_RemoveTag_first (now : time.Time) (tag : string) (n : Note.t) :
  (forall t',
      count_occ string_dec (Note.Tags (Note.RemoveTag now tag n)) t'
      = if string_dec tag t' then Nat.pred (count_occ string_dec (Note.Tags n) t')
        else count_occ string_dec (Note.Tags n) t')
  /\ List.filter (fun t' => negb (String.eqb t' tag)) (Note.Tags (Note.RemoveTag now tag n))
     = List.filter (fun t' => negb (String.eqb t' tag)) (Note.Tags n)
  /\ (~ In tag (Note.Tags n) -> Note.RemoveTag now tag n = n)
  /\ (~ In tag (Note.Tags n) ->
      forall now', Note.Tags (Note.RemoveTag now' tag (Note.AddTag now tag n)) = Note.Tags n).
Proof.
  split; [| split; [| split]].
  - intros t'. unfold Note.RemoveTag.
    destruct (tagIndex tag (Note.Tags n)) as [i |] eqn:Hi.
    + pose proof (tagIndex_split tag (Note.Tags n) i Hi) as Hsplit. simpl.
      set (pre := firstn i (Note.Tags n)) in *.
      set (post := skipn (S i) (Note.Tags n)) in *.
      rewrite Hsplit. rewrite !count_occ_app. simpl.
      destruct (string_dec tag t'); lia.
    + apply tagIndex_None in Hi.
      destruct (string_dec tag t') as [<- | Hne]; [| reflexivity].
      apply (count_occ_not_In string_dec) in Hi. rewrite Hi. reflexivity.
  - unfold Note.RemoveTag.
    destruct (tagIndex tag (Note.Tags n)) as [i |] eqn:Hi; [| reflexivity].
    pose proof (tagIndex_split tag (Note.Tags n) i Hi) as Hsplit. simpl.
    set (pre := firstn i (Note.Tags n)) in *.
    set (post := skipn (S i) (Note.Tags n)) in *.
    rewrite Hsplit. rewrite !List.filter_app. simpl.
    rewrite String.eqb_refl. reflexivity.
  - intros Hin. unfold Note.RemoveTag.
    apply tagIndex_None in Hin. rewrite Hin. reflexivity.
  - intros Hin now'. unfold Note.AddTag.
    destruct (hasTag tag (Note.Tags n)) eqn:Hno;
      [apply hasTag_true in Hno; contradiction |].
    unfold Note.RemoveTag. simpl.
    assert (Hidx : tagIndex tag (Note.Tags n ++ [tag]) = Some (length (Note.Tags n))).
    { unfold tagIndex. apply indexOf_first; [apply String.eqb_refl |].
      intros y Hy. apply String.eqb_neq. intros ->. exact (Hin Hy). }
    rewrite Hidx. simpl.
    rewrite firstn_app, Nat.sub_diag, firstn_all. simpl. rewrite app_nil_r.
    rewrite skipn_all2 by (rewrite List.length_app; simpl; lia).
    apply app_nil_r.
Qed.

Lemma Note_RemoveTag_first_witness :
  Note.Tags (Note.RemoveTag 5 "food" (Note.AddTag 4 "food" groceries))
  = Note.Tags groceries.
Proof.
  destruct (Note_RemoveTag_first 4 "food" groceries) as (_ & _ & _ & Hround).
  apply Hround. intros [].
Defined.

(* ===================================================================== *)
(** * Further properties of the store *)
(* ===================================================================== *)

(** ** Loops that stop at the first match *)

Lemma indexOf_split {A : Type} (p : A -> bool) (l : list A) (i : nat) :
  indexOf p l = Some i ->
  exists pre x post,
    l = pre ++ x :: post /\ length pre = i /\ p x = true
    /\ (forall y, In y pre -> p y = false)
    /\ firstn i l ++ skipn (S i) l = pre ++ post
    /\ l !! i = Some x.
Proof.
  revert i. induction l as [| a rest IH]; simpl; intros i H; [discriminate |].
  destruct (p a) eqn:Ea.
  - inversion H; subst. exists [], a, rest. simpl.
    repeat split; auto. intros y [].
  - destruct (indexOf p rest) as [i' |] eqn:Ei; [| discriminate].
    inversion H; subst.
    destruct (IH i' eq_refl) as (pre & x & post & Hl & Hlen & Hx & Hpre & Hcut & Hlook).
    exists (a :: pre), x, post. simpl. rewrite Hcut.
    split; [rewrite Hl at 1; reflexivity |]. split; [lia |]. split; [exact Hx |].
    split; [| split; [reflexivity | exact Hlook]].
    intros y [<- | Hy]; [exact Ea | exact (Hpre y Hy)].
Qed.



(** ** Loading *)

Lemma loadTasks_result (s s' : FileStorage) (res : result (list Task.t)) :
  loadTasks s = (res, s') ->
  notesFile s' = notesFile s
  /\ match res with
     | Ok r => records (tasksFile s) = Some r /\ tasksFile s' = Doc r
     | Err e => isPersistenceError e = true
     end.
Proof.
  destruct s as [nf tf rs ws]. intros Hrun.
  destruct tf as [| l0 |]; destruct rs as [| o rs]; destruct ws as [| o1 ws];
    run_store; case_script; auto.
Qed.

Lemma loadNotes_result (s s' : FileStorage) (res : result (list Note.t)) :
  loadNotes s = (res, s') ->
  tasksFile s' = tasksFile s
  /\ match res with
     | Ok r => records (notesFile s) = Some r /\ notesFile s' = Doc r
     | Err e => isPersistenceError e = true
     end.
Proof.
  destruct s as [nf tf rs ws]. intros Hrun.
  destruct nf as [| l0 |]; destruct rs as [| o rs]; destruct ws as [| o1 ws];
    run_store; case_script; auto.
Qed.

Lemma loadNotes_total (s : FileStorage) (l : list Note.t) :
  records (notesFile s) = Some l -> faultFree s ->
  exists s', loadNotes s = (Ok l, s').
Proof.
  destruct s as [nf tf rs ws]. unfold faultFree. simpl. intros Hl [-> ->].
  destruct nf; [| | discriminate]; inversion Hl; subst; eexists; reflexivity.
Qed.

(** ** Get *)







(** ** Save, then get *)

Lemma saveTasks_result (s s' : FileStorage) (l : list Task.t) (res : result unit) :
  saveTasks l s = (res, s') ->
  notesFile s' = notesFile s
  /\ match res with
     | Ok _ => tasksFile s' = Doc l
     | Err e => isPersistenceError e = true
     end.
Proof.
  destruct s as [nf tf rs ws]. intros Hrun.
  destruct ws as [| o ws]; run_store; case_script; auto.
Qed.

Lemma saveNotes_result (s s' : FileStorage) (l : list Note.t) (res : result unit) :
  saveNotes l s = (res, s') ->
  tasksFile s' = tasksFile s
  /\ match res with
     | Ok _ => notesFile s' = Doc l
     | Err e => isPersistenceError e = true
     end.
Proof.
  destruct s as [nf tf rs ws]. intros Hrun.
  destruct ws as [| o ws]; run_store; case_script; auto.
Qed.

Lemma SaveTask_result (task : Task.t) (s s' : FileStorage) (res : result unit) :
  SaveTask task s = (res, s') ->
  notesFile s' = notesFile s
  /\ match res with
     | Ok _ => exists l, records (tasksFile s) = Some l
                         /\ tasksFile s' = Doc (upsert (sameTask (Task.ID task)) task l)
     | Err e => isPersistenceError e = true
     end.
Proof.
  intros Hrun. unfold SaveTask, bind in Hrun.
  destruct (loadTasks s) as [[r | e] s1] eqn:Hload.
  - destruct (loadTasks_result s s1 (Ok r) Hload) as (Hn1 & Hr & _).
    destruct (saveTasks_result _ _ _ _ Hrun) as [Hn Hres].
    split; [congruence |]. destruct res; [| exact Hres]. exists r. auto.
  - destruct (loadTasks_result s s1 (Err e) Hload) as (Hn1 & He).
    inversion Hrun; subst. auto.
Qed.

Lemma SaveNote_result (note : Note.t) (s s' : FileStorage) (res : result unit) :
  SaveNote note s = (res, s') ->
  tasksFile s' = tasksFile s
  /\ match res with
     | Ok _ => exists l, records (notesFile s) = Some l
                         /\ notesFile s' = Doc (upsert (sameNote (Note.ID note)) note l)
     | Err e => isPersistenceError e = true
     end.
Proof.
  intros Hrun. unfold SaveNote, bind in Hrun.
  destruct (loadNotes s) as [[r | e] s1] eqn:Hload.
  - destruct (loadNotes_result s s1 (Ok r) Hload) as (Hn1 & Hr & _).
    destruct (saveNotes_result _ _ _ _ Hrun) as [Hn Hres].
    split; [congruence |]. destruct res; [| exact Hres]. exists r. auto.
  - destruct (loadNotes_result s s1 (Err e) Hload) as (Hn1 & He).
    inversion Hrun; subst. auto.
Qed.



(** ** Delete *)

Lemma DeleteTask_result (id : TaskID) (s s' : FileStorage) (l : list Task.t)
    (res : result unit) :
  records (tasksFile s) = Some l -> DeleteTask id s = (res, s') ->
  notesFile s' = notesFile s
  /\ ((exists e, res = Err e /\ isPersistenceError e = true)
      \/ match indexOf (sameTask id) l with
         | Some i => res = Ok tt /\ tasksFile s' = Doc (firstn i l ++ skipn (S i) l)
         | None => res = Err (ErrNotFound id) /\ tasksFile s' = Doc l
         end).
Proof.
  intros Hl Hrun. unfold DeleteTask, bind in Hrun.
  destruct (loadTasks s) as [[r | e] s1] eqn:Hload.
  - destruct (loadTasks_result s s1 (Ok r) Hload) as (Hn1 & Hr & Hfile).
    assert (r = l) by congruence. subst r.
    destruct (indexOf (sameTask id) l) as [i |].
    + destruct (saveTasks_result _ _ _ _ Hrun) as [Hn Hres].
      split; [congruence |]. destruct res as [[] | e].
      * right. auto.
      * left. exists e. auto.
    + inversion Hrun; subst. split; [exact Hn1 |]. right. auto.
  - destruct (loadTasks_result s s1 (Err e) Hload) as (Hn1 & He).
    inversion Hrun; subst. split; [exact Hn1 |]. left. exists e. auto.
Qed.

Lemma DeleteNote_result (id : NoteID) (s s' : FileStorage) (l : list Note.t)
    (res : result unit) :
  records (notesFile s) = Some l -> DeleteNote id s = (res, s') ->
  tasksFile s' = tasksFile s
  /\ ((exists e, res = Err e /\ isPersistenceError e = true)
      \/ match indexOf (sameNote id) l with
         | Some i => res = Ok tt /\ notesFile s' = Doc (firstn i l ++ skipn (S i) l)
         | None => res = Err (ErrNotFound id) /\ notesFile s' = Doc l
         end).
Proof.
  intros Hl Hrun. unfold DeleteNote, bind in Hrun.
  destruct (loadNotes s) as [[r | e] s1] eqn:Hload.
  - destruct (loadNotes_result s s1 (Ok r) Hload) as (Hn1 & Hr & Hfile).
    assert (r = l) by congruence. subst r.
    destruct (indexOf (sameNote id) l) as [i |].
    + destruct (saveNotes_result _ _ _ _ Hrun) as [Hn Hres].
      split; [congruence |]. destruct res as [[] | e].
      * right. auto.
      * left. exists e. auto.
    + inversion Hrun; subst. split; [exact Hn1 |]. right. auto.
  - destruct (loadNotes_result s s1 (Err e) Hload) as (Hn1 & He).
    inversion Hrun; subst. split; [exact Hn1 |]. left. exists e. auto.
Qed.

Lemma DeleteTask_total (id : TaskID) (s : FileStorage) (l : list Task.t) :
  records (tasksFile s) = Some l -> faultFree s ->
  fst (DeleteTask id s) = match indexOf (sameTask id) l with
                          | Some _ => Ok tt
                          | None => Err (ErrNotFound id)
                          end.
Proof.
  destruct s as [nf tf rs ws]. unfold faultFree. simpl. intros Hl [-> ->].
  destruct tf as [| l0 |]; [| | discriminate]; inversion Hl; subst.
  - reflexivity.
  - unfold DeleteTask, bind. simpl.
    destruct (indexOf (sameTask id) l); reflexivity.
Qed.

Lemma DeleteNote_total (id : NoteID) (s : FileStorage) (l : list Note.t) :
  records (notesFile s) = Some l -> faultFree s ->
  fst (DeleteNote id s) = match indexOf (sameNote id) l with
                          | Some _ => Ok tt
                          | None => Err (ErrNotFound id)
                          end.
Proof.
  destruct s as [nf tf rs ws]. unfold faultFree. simpl. intros Hl [-> ->].
  destruct nf as [| l0 |]; [| | discriminate]; inversion Hl; subst.
  - reflexivity.
  - unfold DeleteNote, bind. simpl.
    destruct (indexOf (sameNote id) l); reflexivity.
Qed.



Lemma no_match_sameTask (id : TaskID) (l : list Task.t) :
  (forall y, In y l -> Task.ID y <> id) -> forall y, In y l -> sameTask id y = false.
Proof. intros H y Hy. apply String.eqb_neq. exact (H y Hy). Qed.

Lemma no_match_sameNote (id : NoteID) (l : list Note.t) :
  (forall y, In y l -> Note.ID y <> id) -> forall y, In y l -> sameNote id y = false.
Proof. intros H y Hy. apply String.eqb_neq. exact (H y Hy). Qed.

(** X11.  Deleting an identifier that no stored record has never
    succeeds: on a store that answers every call it fails with "not
    found", and whenever it fails so the file holds the records it held
    (a missing file has been created empty); the other collection's file is
    never touched. *)
Theorem Delete_missing :
  (forall (id : TaskID) (s : FileStorage) (l : list Task.t),
      records (tasksFile s) = Some l ->
      (forall y, In y l -> Task.ID y <> id) ->
      (faultFree s -> fst (DeleteTask id s) = Err (ErrNotFound id))
      /\ (forall res s', DeleteTask id s = (res, s') ->
            res <> Ok tt /\ notesFile s' = notesFile s
            /\ (res = Err (ErrNotFound id) -> tasksFile s' = Doc l)))
  /\ (forall (id : NoteID) (s : FileStorage) (l : list Note.t),
      records (notesFile s) = Some l ->
      (forall y, In y l -> Note.ID y <> id) ->
      (faultFree s -> fst (DeleteNote id s) = Err (ErrNotFound id))
      /\ (forall res s', DeleteNote id s = (res, s') ->
            res <> Ok tt /\ tasksFile s' = tasksFile s
            /\ (res = Err (ErrNotFound id) -> notesFile s' = Doc l))).
Proof.
  split.
  - intros id s l Hl Hnone.
    assert (Hidx : indexOf (sameTask id) l = None)
      by (apply indexOf_None; exact (no_match_sameTask id l Hnone)).
    split.
    + intros Hff. rewrite (DeleteTask_total id s l Hl Hff), Hidx. reflexivity.
    + intros res s' Hrun.
      destruct (DeleteTask_result id s s' l res Hl Hrun) as [Hn Hres].
      rewrite Hidx in Hres.
      destruct Hres as [(e & -> & He) | [-> Hfile]].
      * split; [discriminate |]. split; [exact Hn |].
        intros Heq. inversion Heq; subst. discriminate He.
      * split; [discriminate |]. split; [exact Hn |]. intros _. exact Hfile.
  - intros id s l Hl Hnone.
    assert (Hidx : indexOf (sameNote id) l = None)
      by (apply indexOf_None; exact (no_match_sameNote id l Hnone)).
    split.
    + intros Hff. rewrite (DeleteNote_total id s l Hl Hff), Hidx. reflexivity.
    + intros res s' Hrun.
      destruct (DeleteNote_result id s s' l res Hl Hrun) as [Hn Hres].
      rewrite Hidx in Hres.
      destruct Hres as [(e & -> & He) | [-> Hfile]].
      * split; [discriminate |]. split; [exact Hn |].
        intros Heq. inversion Heq; subst. discriminate He.
      * split; [discriminate |]. split; [exact Hn |]. intros _. exact Hfile.
Qed.

Lemma Delete_missing_witness :
  fst (DeleteTask "20250109000000zzzzzzzz" disk) = Err (ErrNotFound "20250109000000zzzzzzzz")
  /\ tasksFile (snd (DeleteTask "20250109000000zzzzzzzz" disk)) = Doc [rent; taxes].
Proof.
  destruct Delete_missing as [HT _].
  destruct (HT "20250109000000zzzzzzzz" disk [rent; taxes] eq_refl) as [Hfail Hfile].
  - intros y [<- | [<- | []]]; vm_compute; discriminate.
  - split; [apply Hfail; split; reflexivity |].
    destruct (Hfile (fst (DeleteTask "20250109000000zzzzzzzz" disk))
                (snd (DeleteTask "20250109000000zzzzzzzz" disk)) eq_refl)
      as (_ & _ & Hdoc).
    apply Hdoc. reflexivity.
Defined.



(** ** Identifiers stay unique *)

Lemma upsert_ids {A : Type} (id : A -> string) (x : A) (l : list A) :
  List.NoDup (map id l) ->
  List.NoDup (map id (upsert (fun y => String.eqb (id y) (id x)) x l)).
Proof.
  intros Hnd. unfold upsert.
  destruct (indexOf (fun y => String.eqb (id y) (id x)) l) as [i |] eqn:Hi.
  - destruct (indexOf_split _ l i Hi) as (pre & old & post & -> & <- & Hold & _).
    rewrite insert_middle. apply String.eqb_eq in Hold.
    rewrite map_app in *. simpl in *. rewrite <- Hold. exact Hnd.
  - pose proof (proj1 (indexOf_None _ l) Hi) as Hnone.
    rewrite map_app. simpl. apply NoDup_snoc; [exact Hnd |].
    intros Hin. apply in_map_iff in Hin. destruct Hin as (y & Hy & Hyl).
    specialize (Hnone y Hyl). simpl in Hnone.
    apply String.eqb_neq in Hnone. exact (Hnone Hy).
Qed.

Lemma cut_ids {A : Type} (id : A -> string) (l : list A) (i : nat) :
  List.NoDup (map id l) -> List.NoDup (map id (firstn i l ++ skipn (S i) l)).
Proof.
  intros Hnd. rewrite map_app, <- List.firstn_map, <- List.skipn_map.
  apply NoDup_cut. exact Hnd.
Qed.

(** X13.  The store keeps identifiers unique: when no two stored records
    share an identifier, none do after a successful save or delete. *)
Theorem unique_ids_kept :
  (forall (s s' : FileStorage) (l : list Task.t),
      records (tasksFile s) = Some l -> List.NoDup (map Task.ID l) ->
      (forall task, SaveTask task s = (Ok tt, s') ->
         exists l', tasksFile s' = Doc l' /\ List.NoDup (map Task.ID l'))
      /\ (forall id, DeleteTask id s = (Ok tt, s') ->
         exists l', tasksFile s' = Doc l' /\ List.NoDup (map Task.ID l')))
  /\ (forall (s s' : FileStorage) (l : list Note.t),
      records (notesFile s) = Some l -> List.NoDup (map Note.ID l) ->
      (forall note, SaveNote note s = (Ok tt, s') ->
         exists l', notesFile s' = Doc l' /\ List.NoDup (map Note.ID l'))
      /\ (forall id, DeleteNote id s = (Ok tt, s') ->
         exists l', notesFile s' = Doc l' /\ List.NoDup (map Note.ID l'))).
Proof.
  split.
  - intros s s' l Hl Hnd. split.
    + intros task Hrun. destruct (SaveTask_Ok task s s' l Hl Hrun) as [Hfile _].
      eexists. split; [exact Hfile |]. exact (upsert_ids Task.ID task l Hnd).
    + intros id Hrun.
      destruct (DeleteTask_result id s s' l (Ok tt) Hl Hrun) as [_ Hres].
      destruct Hres as [(e & He & _) | Hres]; [discriminate |].
      destruct (indexOf (sameTask id) l) as [i |]; [| destruct Hres; discriminate].
      destruct Hres as [_ Hfile]. eexists. split; [exact Hfile |].
      exact (cut_ids Task.ID l i Hnd).
  - intros s s' l Hl Hnd. split.
    + intros note Hrun. destruct (SaveNote_Ok note s s' l Hl Hrun) as [Hfile _].
      eexists. split; [exact Hfile |]. exact (upsert_ids Note.ID note l Hnd).
    + intros id Hrun.
      destruct (DeleteNote_result id s s' l (Ok tt) Hl Hrun) as [_ Hres].
      destruct Hres as [(e & He & _) | Hres]; [discriminate |].
      destruct (indexOf (sameNote id) l) as [i |]; [| destruct Hres; discriminate].
      destruct Hres as [_ Hfile]. eexists. split; [exact Hfile |].
      exact (cut_ids Note.ID l i Hnd).
Qed.

Lemma unique_ids_kept_witness :
  exists l', tasksFile (snd (SaveTask rentPaid disk)) = Doc l'
             /\ List.NoDup (map Task.ID l').
Proof.
  destruct unique_ids_kept as [HT _].
  destruct (HT disk (snd (SaveTask rentPaid disk)) [rent; taxes] eq_refl) as [Hsave _].
  - apply NoDup_ListNoDup. vm_compute. repeat constructor;
      rewrite ?list_elem_of_In; simpl; intuition discriminate.
  - exact (Hsave rentPaid eq_refl).
Defined.

(** ** A missing file *)

(** X14.  The first access to a collection whose file is missing creates
    the file as the empty container and returns no record; when that write
    fails, the read fails with the write's error.  The other collection's
    file is not touched. *)
Theorem missing_file_is_created (s : FileStorage) :
  (tasksFile s = Absent ->
   notesFile (snd (GetAllTasks s)) = notesFile s
   /\ match writeScript s with
      | [] | WriteOk :: _ =>
          fst (GetAllTasks s) = Ok [] /\ tasksFile (snd (GetAllTasks s)) = Doc []
      | _ :: _ => fst (GetAllTasks s) = Err ErrWrite
      end)
  /\ (notesFile s = Absent ->
      tasksFile (snd (GetAllNotes s)) = tasksFile s
      /\ match writeScript s with
         | [] | WriteOk :: _ =>
             fst (GetAllNotes s) = Ok [] /\ notesFile (snd (GetAllNotes s)) = Doc []
         | _ :: _ => fst (GetAllNotes s) = Err ErrWrite
         end).
Proof.
  destruct s as [nf tf rs ws]. simpl. split; intros ->;
    destruct ws as [| [] ws]; simpl; auto.
Qed.

Lemma missing_file_is_created_witness :
  fst (GetAllTasks {| notesFile := Absent; tasksFile := Absent;
                      readScript := []; writeScript := [] |}) = Ok []
  /\ tasksFile (snd (GetAllTasks {| notesFile := Absent; tasksFile := Absent;
                                    readScript := []; writeScript := [] |})) = Doc [].
Proof.
  destruct (missing_file_is_created
              {| notesFile := Absent; tasksFile := Absent;
                 readScript := []; writeScript := [] |}) as [HT _].
  destruct (HT eq_refl) as [_ Hres]. exact Hres.
Defined.

(** ** What the methods leave alone *)

(** X15.  No method on tasks touches the notes file and no method on notes
    touches the tasks file, whatever the outcome of the call. *)
Theorem collections_are_independent (s : FileStorage) :
  (forall task, notesFile (snd (SaveTask task s)) = notesFile s)
  /\ (forall id, notesFile (snd (DeleteTask id s)) = notesFile s)
  /\ (forall id, notesFile (snd (GetTask id s)) = notesFile s)
  /\ notesFile (snd (GetAllTasks s)) = notesFile s
  /\ (forall t, notesFile (snd (GetTasksDueBefore t s)) = notesFile s)
  /\ (forall t, notesFile (snd (GetTasksWithRemindersBy t s)) = notesFile s)
  /\ (forall tag, notesFile (snd (GetTaskByTag tag s)) = notesFile s)
  /\ (forall note, tasksFile (snd (SaveNote note s)) = tasksFile s)
  /\ (forall id, tasksFile (snd (DeleteNote id s)) = tasksFile s)
  /\ (forall id, tasksFile (snd (GetNote id s)) = tasksFile s)
  /\ tasksFile (snd (GetAllNotes s)) = tasksFile s
  /\ (forall tag, tasksFile (snd (GetNotesByTag tag s)) = tasksFile s).
Proof.
  assert (HloadT : notesFile (snd (loadTasks s)) = notesFile s).
  { destruct (loadTasks s) as [res s1] eqn:E.
    exact (proj1 (loadTasks_result s s1 res E)). }
  assert (HloadN : tasksFile (snd (loadNotes s)) = tasksFile s).
  { destruct (loadNotes s) as [res s1] eqn:E.
    exact (proj1 (loadNotes_result s s1 res E)). }
  assert (HqT : forall (A : Type) (f : list Task.t -> A),
             notesFile (snd ((let* l := loadTasks in ret (f l)) s)) = notesFile s).
  { intros A f. unfold bind. destruct (loadTasks s) as [[l | e] s1]; exact HloadT. }
  assert (HqN : forall (A : Type) (f : list Note.t -> A),
             tasksFile (snd ((let* l := loadNotes in ret (f l)) s)) = tasksFile s).
  { intros A f. unfold bind. destruct (loadNotes s) as [[l | e] s1]; exact HloadN. }
  repeat match goal with |- _ /\ _ => split end.
  - intros task. destruct (SaveTask task s) as [res s1] eqn:E.
    exact (proj1 (SaveTask_result task s s1 res E)).
  - intros id. unfold DeleteTask, bind.
    destruct (loadTasks s) as [[l | e] s1]; simpl in *; [| exact HloadT].
    destruct (indexOf (sameTask id) l); [| exact HloadT].
    destruct (saveTasks _ s1) as [res s2] eqn:E. simpl.
    rewrite (proj1 (saveTasks_result _ _ _ _ E)). exact HloadT.
  - intros id. unfold GetTask, bind.
    destruct (loadTasks s) as [[l | e] s1]; simpl in *; [| exact HloadT].
    destruct (indexOf (sameTask id) l) as [i |]; [destruct (l !! i) |]; exact HloadT.
  - exact HloadT.
  - intros t. exact (HqT _ (collect (dueBefore t))).
  - intros t. exact (HqT _ (collect (reminderBefore t))).
  - intros tag. exact (HqT _ (collect (fun task => hasTag tag (Task.Tags task)))).
  - intros note. destruct (SaveNote note s) as [res s1] eqn:E.
    exact (proj1 (SaveNote_result note s s1 res E)).
  - intros id. unfold DeleteNote, bind.
    destruct (loadNotes s) as [[l | e] s1]; simpl in *; [| exact HloadN].
    destruct (indexOf (sameNote id) l); [| exact HloadN].
    destruct (saveNotes _ s1) as [res s2] eqn:E. simpl.
    rewrite (proj1 (saveNotes_result _ _ _ _ E)). exact HloadN.
  - intros id. unfold GetNote, bind.
    destruct (loadNotes s) as [[l | e] s1]; simpl in *; [| exact HloadN].
    destruct (indexOf (sameNote id) l) as [i |]; [destruct (l !! i) |]; exact HloadN.
  - exact HloadN.
  - intros tag. exact (HqN _ (collect (fun note => hasTag tag (Note.Tags note)))).
Qed.

Lemma loadTasks_untouched (s : FileStorage) :
  tasksFile s <> Absent -> untouched s (snd (loadTasks s)).
Proof.
  destruct s as [nf tf rs ws]. unfold untouched. simpl. intros Hf.
  destruct tf as [| l |]; [contradiction | |];
    destruct rs as [| [] rs]; simpl; auto.
Qed.

Lemma loadNotes_untouched (s : FileStorage) :
  notesFile s <> Absent -> untouched s (snd (loadNotes s)).
Proof.
  destruct s as [nf tf rs ws]. unfold untouched. simpl. intros Hf.
  destruct nf as [| l |]; [contradiction | |];
    destruct rs as [| [] rs]; simpl; auto.
Qed.

(** X16.  On a collection whose file exists, the reading methods write
    nothing: after a get, a get-all or a query, successful or not, both
    files are as they were and no write was attempted. *)
Theorem reads_write_nothing (s : FileStorage) :
  (tasksFile s <> Absent ->
   (forall id, untouched s (snd (GetTask id s)))
   /\ untouched s (snd (GetAllTasks s))
   /\ (forall t, untouched s (snd (GetTasksDueBefore t s)))
   /\ (forall t, untouched s (snd (GetTasksWithRemindersBy t s)))
   /\ (forall tag, untouched s (snd (GetTaskByTag tag s))))
  /\ (notesFile s <> Absent ->
      (forall id, untouched s (snd (GetNote id s)))
      /\ untouched s (snd (GetAllNotes s))
      /\ (forall tag, untouched s (snd (GetNotesByTag tag s)))).
Proof.
  split.
  - intros Hf. pose proof (loadTasks_untouched s Hf) as Hload.
    assert (Hq : forall (A : Type) (f : list Task.t -> A),
               untouched s (snd ((let* l := loadTasks in ret (f l)) s))).
    { intros A f. unfold bind. destruct (loadTasks s) as [[l | e] s1]; exact Hload. }
    split; [| split; [exact Hload | split; [| split]]].
    + intros id. unfold GetTask, bind.
      destruct (loadTasks s) as [[l | e] s1]; simpl in *; [| exact Hload].
      destruct (indexOf (sameTask id) l) as [i |]; [destruct (l !! i) |]; exact Hload.
    + intros t. exact (Hq _ (collect (dueBefore t))).
    + intros t. exact (Hq _ (collect (reminderBefore t))).
    + intros tag. exact (Hq _ (collect (fun task => hasTag tag (Task.Tags task)))).
  - intros Hf. pose proof (loadNotes_untouched s Hf) as Hload.
    split; [| split; [exact Hload |]].
    + intros id. unfold GetNote, bind.
      destruct (loadNotes s) as [[l | e] s1]; simpl in *; [| exact Hload].
      destruct (indexOf (sameNote id) l) as [i |]; [destruct (l !! i) |]; exact Hload.
    + intros tag. unfold GetNotesByTag, bind.
      destruct (loadNotes s) as [[l | e] s1]; exact Hload.
Qed.

Lemma reads_write_nothing_witness :
  untouched diskTornWrite (snd (GetTask (Task.ID rent) diskTornWrite))
  /\ untouched diskTornWrite (snd (GetTasksDueBefore 8000000000000 diskTornWrite)).
Proof.
  destruct (reads_write_nothing diskTornWrite) as [HT _].
  destruct HT as (Hget & _ & Hdue & _); [discriminate |].
  split; [exact (Hget (Task.ID rent)) | exact (Hdue 8000000000000)].
Defined.

(** ** Queries by tag *)

(** X17.  [GetTaskByTag] and [GetNotesByTag] return, in file order,
    exactly the stored records whose tag list contains the tag, each as
    often as it is stored (once per record, however often the record
    carries the tag); on a store that answers every call they succeed. *)
Theorem GetByTag_exact (tag : string) :
  (forall (s : FileStorage) (l : list Task.t),
      records (tasksFile s) = Some l ->
      (faultFree s ->
       fst (GetTaskByTag tag s)
       = Ok (List.filter (fun k => hasTag tag (Task.Tags k)) l))
      /\ (forall r s', GetTaskByTag tag s = (Ok r, s') ->
            r = List.filter (fun k => hasTag tag (Task.Tags k)) l
            /\ forall x, In x r <-> In x l /\ In tag (Task.Tags x)))
  /\ (forall (s : FileStorage) (l : list Note.t),
      records (notesFile s) = Some l ->
      (faultFree s ->
       fst (GetNotesByTag tag s)
       = Ok (List.filter (fun n => hasTag tag (Note.Tags n)) l))
      /\ (forall r s', GetNotesByTag tag s = (Ok r, s') ->
            r = List.filter (fun n => hasTag tag (Note.Tags n)) l
            /\ forall x, In x r <-> In x l /\ In tag (Note.Tags x))).
Proof.
  split.
  - intros s l Hl. split.
    + intros Hff. destruct (loadTasks_total s l Hl Hff) as [s1 Hload].
      unfold GetTaskByTag, bind. rewrite Hload. simpl.
      rewrite collect_filter. reflexivity.
    + intros r s' Hrun. unfold GetTaskByTag, bind in Hrun.
      destruct (loadTasks s) as [[r0 | e] s1] eqn:Hload; [| discriminate].
      destruct (loadTasks_Ok s s1 l r0 Hl Hload) as (-> & _ & _).
      unfold ret in Hrun. inversion Hrun; subst. clear Hrun.
      rewrite collect_filter. split; [reflexivity |].
      intros x. rewrite filter_In, hasTag_true. tauto.
  - intros s l Hl. split.
    + intros Hff. destruct (loadNotes_total s l Hl Hff) as [s1 Hload].
      unfold GetNotesByTag, bind. rewrite Hload. simpl.
      rewrite collect_filter. reflexivity.
    + intros r s' Hrun. unfold GetNotesByTag, bind in Hrun.
      destruct (loadNotes s) as [[r0 | e] s1] eqn:Hload; [| discriminate].
      destruct (loadNotes_Ok s s1 l r0 Hl Hload) as (-> & _ & _).
      unfold ret in Hrun. inversion Hrun; subst. clear Hrun.
      rewrite collect_filter. split; [reflexivity |].
      intros x. rewrite filter_In, hasTag_true. tauto.
Qed.

Lemma GetByTag_exact_witness :
  fst (GetTaskByTag "home"
         (snd (SaveTask (Task.AddTag 3 "home" (Task.AddTag 2 "home" taxes)) disk)))
  = Ok [Task.AddTag 3 "home" (Task.AddTag 2 "home" taxes)].
Proof.
  destruct (GetByTag_exact "home") as [HT _].
  destruct (HT (snd (SaveTask (Task.AddTag 3 "home" (Task.AddTag 2 "home" taxes)) disk))
              [rent; Task.AddTag 3 "home" (Task.AddTag 2 "home" taxes)] eq_refl)
    as [Hok _].
  rewrite Hok; [reflexivity | split; reflexivity].
Defined.

(** ** Creating a task with a reminder *)



(* ===================================================================== *)
(** * Further properties of the scheduler *)
(* ===================================================================== *)

Lemma UpdateStatus_cases (now : time.Time) (k : Task.t) :
  Task.UpdateStatus now k = k
  \/ Task.UpdateStatus now k = Task.setStatus TaskStatusOverdue k.
Proof.
  unfold Task.UpdateStatus. destruct (isCompleted (Task.Status k)); [auto |].
  destruct (Task.IsOverDue now k); auto.
Qed.

Lemma tick_Ok (now : time.Time) (r : ReminderService) (tasks : list Task.t) :
  dueTasks now r = Ok tasks ->
  checkRemindersAt now r
  = sweepLedger now (fold_left (remind now) tasks (afterQuery now r)).
Proof.
  unfold dueTasks, checkRemindersAt, afterQuery.
  destruct (GetTasksWithRemindersBy now (store r)) as [res st]. simpl.
  intros ->. reflexivity.
Qed.

Lemma tick_Err (now : time.Time) (r : ReminderService) (e : error) :
  dueTasks now r = Err e ->
  checkRemindersAt now r = logError e (afterQuery now r).
Proof.
  unfold dueTasks, checkRemindersAt, afterQuery.
  destruct (GetTasksWithRemindersBy now (store r)) as [res st]. simpl.
  intros ->. reflexivity.
Qed.

Lemma dueTasks_Ok (now : time.Time) (r : ReminderService) (l tasks : list Task.t) :
  records (tasksFile (store r)) = Some l -> dueTasks now r = Ok tasks ->
  tasks = List.filter (reminderBefore now) l.
Proof.
  intros Hl Hdue. unfold dueTasks, GetTasksWithRemindersBy, bind in Hdue.
  destruct (loadTasks (store r)) as [[r0 | e] s1] eqn:Hload; [| discriminate].
  destruct (loadTasks_Ok (store r) s1 l r0 Hl Hload) as (-> & _ & _).
  simpl in Hdue. inversion Hdue. apply collect_filter.
Qed.

(** The Notifier is only ever called with a task of the list the loop
    goes through, as [UpdateStatus] leaves it. *)
Lemma loop_notifies (now : time.Time) (tasks : list Task.t) (r : ReminderService)
    (task : Task.t) :
  In (EvNotify task) (trace (fold_left (remind now) tasks r)) ->
  In (EvNotify task) (trace r)
  \/ exists stored, In stored tasks
       /\ (task = stored \/ task = Task.setStatus TaskStatusOverdue stored).
Proof.
  revert r. induction tasks as [| a tasks IH]; intros r Hin; simpl in Hin; [auto |].
  destruct (IH _ Hin) as [Hbefore | (stored & Hs & Hcase)].
  - destruct (shouldSend now (sentReminders r) (Task.ID a)) eqn:E.
    + destruct (remind_fire now r a E) as (_ & _ & _ & Htr).
      rewrite Htr in Hbefore. apply in_app_or in Hbefore.
      destruct Hbefore as [H | [H | [H | []]]]; [auto | discriminate |].
      inversion H; subst. right. exists a. split; [left; reflexivity |].
      destruct (UpdateStatus_cases (tickTime r) a) as [-> | ->]; auto.
    + rewrite (remind_skip now r a E) in Hbefore. auto.
  - right. exists stored. split; [right; exact Hs | exact Hcase].
Qed.

(** X19.  A tick calls the Notifier only with tasks it found stored, not
    Completed, with their reminder time strictly before [now]: the task
    handed over is the stored task, or the stored task with status
    Overdue.  This holds whatever the store does during the tick. *)
Theorem notified_tasks_are_due (now : time.Time) (r : ReminderService)
    (l : list Task.t) (task : Task.t) :
  records (tasksFile (store r)) = Some l ->
  In (EvNotify task) (trace (checkRemindersAt now r)) ->
  In (EvNotify task) (trace r)
  \/ (Task.Status task <> TaskStatusCompleted
      /\ Task.ReminderAt task < now
      /\ exists stored, In stored l
           /\ Task.Status stored <> TaskStatusCompleted
           /\ (task = stored \/ task = Task.setStatus TaskStatusOverdue stored)).
Proof.
  intros Hl Hin. destruct (dueTasks now r) as [tasks | e] eqn:Hdue.
  - rewrite (tick_Ok now r tasks Hdue) in Hin. simpl in Hin.
    destruct (loop_notifies now tasks _ task Hin) as [H | (stored & Hs & Hcase)];
      [left; exact H | right].
    rewrite (dueTasks_Ok now r l tasks Hl Hdue) in Hs.
    apply filter_In in Hs. destruct Hs as [Hs Hdue'].
    unfold reminderBefore, time.Before in Hdue'.
    apply andb_true_iff in Hdue'. destruct Hdue' as [Hlt Hc].
    apply Z.ltb_lt in Hlt. apply negb_true_iff, isCompleted_false in Hc.
    split; [| split].
    + destruct Hcase as [-> | ->]; [exact Hc | discriminate].
    + destruct Hcase as [-> | ->]; exact Hlt.
    + exists stored. auto.
  - rewrite (tick_Err now r e Hdue) in Hin. simpl in Hin.
    apply in_app_or in Hin. destruct Hin as [H | [H | []]]; [auto | discriminate].
Qed.

Lemma notified_tasks_are_due_witness :
  Task.Status rent <> TaskStatusCompleted
  /\ Task.ReminderAt rent < 4000000000000.
Proof.
  destruct (notified_tasks_are_due 4000000000000 everyMinute [rent; taxes] rent)
    as [[] | (Hs & Hr & _)].
  - reflexivity.
  - vm_compute. right. left. reflexivity.
  - split; assumption.
Defined.

(** In one pass of the loop an identifier is notified at most once. *)
Lemma loop_at_most_once (now : time.Time) (id : TaskID) (tasks : list Task.t)
    (r : ReminderService) :
  (notifyCount id (trace (fold_left (remind now) tasks r))
   <= S (notifyCount id (trace r)))%nat.
Proof.
  revert r. induction tasks as [| a tasks IH]; intros r; simpl; [lia |].
  destruct (String.eqb_spec (Task.ID a) id) as [Heq | Hne].
  - destruct (shouldSend now (sentReminders r) (Task.ID a)) eqn:E.
    + subst id. destruct (remind_same now r a E) as [Hc Hs].
      destruct (loop_quiet now (Task.ID a) now tasks (remind now r a) Hs) as [Hc' _].
      * rewrite Sub_self. reflexivity.
      * lia.
    + rewrite (remind_skip now r a E). apply IH.
  - destruct (remind_other now id r a Hne) as [Hc _].
    specialize (IH (remind now r a)). lia.
Qed.

(** X20.  Within one tick the Notifier is called at most once per task
    identifier, whatever the ledger held, whatever the store holds (also
    several records with one identifier) and whatever the store does
    during the tick. *)
Theorem at_most_once_per_tick (now : time.Time) (r : ReminderService) :
  exists evs,
    trace (checkRemindersAt now r) = trace r ++ evs
    /\ forall id, (notifyCount id evs <= 1)%nat.
Proof.
  destruct (dueTasks now r) as [tasks | e] eqn:Hdue.
  - rewrite (tick_Ok now r tasks Hdue). simpl.
    destruct (loop_trace now tasks (afterQuery now r)) as (evs & Htr & _).
    exists evs. split; [exact Htr |]. intros id.
    pose proof (loop_at_most_once now id tasks (afterQuery now r)) as Hle.
    rewrite Htr, notifyCount_app in Hle. simpl in Hle. lia.
  - rewrite (tick_Err now r e Hdue). simpl. exists [EvLog e].
    split; [reflexivity |]. intros id. vm_compute. lia.
Qed.

Lemma window_closed (now last : time.Time) :
  now - last <= reNotifyWindow -> (reNotifyWindow <? time.Sub now last) = false.
Proof.
  intros Hle. apply Z.ltb_ge.
  pose proof (Sub_gt_window now last reNotifyWindow reNotifyWindow_range) as Hw.
  destruct (Z.le_gt_cases (time.Sub now last) reNotifyWindow) as [H | H]; [exact H |].
  apply Hw in H. lia.
Qed.

Lemma tick_quiet (now last : time.Time) (id : TaskID) (r : ReminderService) :
  sentReminders r !! id = Some last ->
  now - last <= reNotifyWindow ->
  notifyCount id (trace (checkRemindersAt now r)) = notifyCount id (trace r)
  /\ sentReminders (checkRemindersAt now r) !! id = Some last.
Proof.
  intros Hlast Hle. pose proof (window_closed now last Hle) as Hwin.
  destruct (dueTasks now r) as [tasks | e] eqn:Hdue.
  - rewrite (tick_Ok now r tasks Hdue). simpl.
    destruct (loop_quiet now id last tasks (afterQuery now r) Hlast Hwin) as [Hc Hs].
    split; [exact Hc |]. apply sweep_keeps; [exact Hs |].
    exact (window_below_expiry _ Hwin).
  - rewrite (tick_Err now r e Hdue). simpl. split; [| exact Hlast].
    rewrite notifyCount_app. vm_compute (notifyCount id [EvLog e]). lia.
Qed.

(** X21.  A task reminded at most six hours before [now] (six hours
    exactly included) is not notified by the tick at [now] and keeps its
    ledger entry, whatever the store holds and does. *)
Theorem tick_within_window_is_quiet (now last : time.Time) (id : TaskID)
    (r : ReminderService) :
  sentReminders r !! id = Some last ->
  now - last <= reNotifyWindow ->
  notifyCount id (trace (checkRemindersAt now r)) = notifyCount id (trace r)
  /\ sentReminders (checkRemindersAt now r) !! id = Some last.
Proof. exact (tick_quiet now last id r). Qed.

Lemma tick_within_window_is_quiet_witness :
  notifyCount (Task.ID rent)
    (trace (checkRemindersAt (4000000000000 + reNotifyWindow) (checkReminders everyMinute)))
  = notifyCount (Task.ID rent) (trace (checkReminders everyMinute)).
Proof.
  apply (tick_within_window_is_quiet (4000000000000 + reNotifyWindow) 4000000000000
           (Task.ID rent) (checkReminders everyMinute)).
  - vm_compute. reflexivity.
  - vm_compute. discriminate.
Defined.

(** ** The ledger *)

Lemma loop_ledger (now : time.Time) (id : TaskID) (t : time.Time)
    (tasks : list Task.t) (r : ReminderService) :
  sentReminders (fold_left (remind now) tasks r) !! id = Some t ->
  t = now \/ sentReminders r !! id = Some t.
Proof.
  revert r. induction tasks as [| a tasks IH]; intros r H; simpl in H; [auto |].
  destruct (IH _ H) as [Hnow | Hprev]; [auto |].
  destruct (shouldSend now (sentReminders r) (Task.ID a)) eqn:E.
  - destruct (remind_fire now r a E) as (_ & Hsent & _).
    rewrite Hsent in Hprev.
    destruct (String.eqb_spec (Task.ID a) id) as [Heq | Hne].
    + subst id. rewrite lookup_insert_eq in Hprev. inversion Hprev. auto.
    + rewrite lookup_insert_ne in Hprev by exact Hne. auto.
  - rewrite (remind_skip now r a E) in Hprev. auto.
Qed.

Lemma expiry_open (now t : time.Time) :
  ~ ledgerExpiry < time.Sub now t <-> now - t <= ledgerExpiry.
Proof.
  pose proof (Sub_gt_window now t ledgerExpiry ledgerExpiry_range) as Hw. lia.
Qed.

(** X22.  After a tick every ledger entry is either the entry the ledger
    held before or [now]; and when the tick's query succeeded, no entry is
    older than 24 hours, while every entry that was at most 24 hours old
    is still there or has been replaced by [now]. *)
Theorem ledger_after_tick (now : time.Time) (r : ReminderService) (id : TaskID) :
  (forall t, sentReminders (checkRemindersAt now r) !! id = Some t ->
     (t = now \/ sentReminders r !! id = Some t)
     /\ (forall tasks, dueTasks now r = Ok tasks -> now - t <= ledgerExpiry))
  /\ (forall t, sentReminders r !! id = Some t -> now - t <= ledgerExpiry ->
        sentReminders (checkRemindersAt now r) !! id = Some t
        \/ sentReminders (checkRemindersAt now r) !! id = Some now).
Proof.
  split.
  - intros t Ht. destruct (dueTasks now r) as [tasks | e] eqn:Hdue.
    + rewrite (tick_Ok now r tasks Hdue) in Ht. simpl in Ht. unfold sweep in Ht.
      apply map_lookup_filter_Some in Ht. destruct Ht as [Ht Hfresh]. simpl in Hfresh.
      split; [exact (loop_ledger now id t tasks _ Ht) |].
      intros _ _. apply expiry_open. exact Hfresh.
    + rewrite (tick_Err now r e Hdue) in Ht. simpl in Ht.
      split; [right; exact Ht |]. intros tasks Habs. discriminate Habs.
  - intros t Ht Hfresh. destruct (dueTasks now r) as [tasks | e] eqn:Hdue.
    + rewrite (tick_Ok now r tasks Hdue). simpl.
      assert (Hloop : forall (ts : list Task.t) (r0 : ReminderService),
                sentReminders r0 !! id = Some t \/ sentReminders r0 !! id = Some now ->
                sentReminders (fold_left (remind now) ts r0) !! id = Some t
                \/ sentReminders (fold_left (remind now) ts r0) !! id = Some now).
      { induction ts as [| a ts IH]; intros r0 H0; simpl; [exact H0 |].
        apply IH.
        destruct (shouldSend now (sentReminders r0) (Task.ID a)) eqn:E.
        - destruct (remind_fire now r0 a E) as (_ & Hsent & _). rewrite Hsent.
          destruct (String.eqb_spec (Task.ID a) id) as [Heq | Hne].
          + subst id. right. apply lookup_insert_eq.
          + rewrite lookup_insert_ne by exact Hne. exact H0.
        - rewrite (remind_skip now r0 a E). exact H0. }
      destruct (Hloop tasks (afterQuery now r) (or_introl Ht)) as [H | H].
      * left. apply sweep_keeps; [exact H |]. apply expiry_open. exact Hfresh.
      * right. apply sweep_keeps; [exact H |]. rewrite Sub_self.
        vm_compute. discriminate.
    + rewrite (tick_Err now r e Hdue). simpl. left. exact Ht.
Qed.

Lemma ledger_after_tick_witness :
  sentReminders (checkReminders everyMinute) !! Task.ID rent = Some 4000000000000
  /\ 4000000000000 - 4000000000000 <= ledgerExpiry.
Proof.
  assert (Hentry : sentReminders (checkRemindersAt 4000000000000
                                    (withReads 1 everyMinute)) !! Task.ID rent
                   = Some 4000000000000) by (vm_compute; reflexivity).
  split; [exact Hentry |].
  destruct (ledger_after_tick 4000000000000 (withReads 1 everyMinute) (Task.ID rent))
    as [Hafter _].
  destruct (Hafter 4000000000000 Hentry) as [_ Hfresh].
  exact (Hfresh [rent] eq_refl).
Defined.

(** X23.  The sweep never changes who is reminded: an entry it removes is
    older than 24 hours, so at the time of the sweep and at any later time
    its task would be eligible anyway.  For every later [now'], eligibility
    read from the swept ledger is eligibility read from the ledger as it
    was. *)
Theorem sweep_keeps_eligibility (now now' : time.Time) (sent : gmap string Z)
    (id : TaskID) :
  now <= now' ->
  shouldSend now' (sweep now sent) id = shouldSend now' sent id.
Proof.
  intros Hle. unfold shouldSend, sweep.
  destruct (sent !! id) as [last |] eqn:Hlast.
  - destruct (Z_lt_dec ledgerExpiry (time.Sub now last)) as [Hold | Hfresh].
    + assert (Hgone : filter (fun entry : string * Z =>
                                ¬ (ledgerExpiry < time.Sub now entry.2)) sent !! id = None).
      { apply map_lookup_filter_None. right. intros x Hx Hkeep.
        assert (x = last) by congruence. subst x. exact (Hkeep Hold). }
      rewrite Hgone. symmetry. apply Z.ltb_lt.
      apply (Sub_gt_window now' last reNotifyWindow reNotifyWindow_range).
      apply (Sub_gt_window now last ledgerExpiry ledgerExpiry_range) in Hold.
      assert (reNotifyWindow < ledgerExpiry) by (vm_compute; reflexivity). lia.
    + rewrite (map_lookup_filter_Some_2 _ sent id last Hlast Hfresh). reflexivity.
  - assert (Hgone : filter (fun entry : string * Z =>
                              ¬ (ledgerExpiry < time.Sub now entry.2)) sent !! id = None).
    { apply map_lookup_filter_None. left. exact Hlast. }
    rewrite Hgone. reflexivity.
Qed.

Lemma sweep_keeps_eligibility_witness :
  shouldSend 100000000000000 (sweep 100000000000000 {[ "a" := 0 ]}) "a"
  = shouldSend 100000000000000 {[ "a" := 0 ]} "a".
Proof.
  apply (sweep_keeps_eligibility 100000000000000 100000000000000 {[ "a" := 0 ]} "a").
  vm_compute. discriminate.
Defined.

(** ** A tick whose query fails *)

(** X24.  While the tasks file is torn, a tick only logs: it appends one
    log event carrying a PersistenceError, calls no Notifier, skips the
    sweep (the ledger is exactly as it was) and leaves the file torn, so
    the next tick does the same. *)
Theorem torn_file_silences_reminders (now : time.Time) (r : ReminderService) :
  tasksFile (store r) = Torn ->
  exists e,
    isPersistenceError e = true
    /\ trace (checkRemindersAt now r) = trace r ++ [EvLog e]
    /\ sentReminders (checkRemindersAt now r) = sentReminders r
    /\ tasksFile (store (checkRemindersAt now r)) = Torn
    /\ notesFile (store (checkRemindersAt now r)) = notesFile (store r).
Proof.
  intros Htorn. unfold checkRemindersAt.
  destruct (store r) as [nf tf rs ws] eqn:Hst. simpl in Htorn. subst tf.
  destruct rs as [| [] rs]; simpl; eexists; repeat split; reflexivity.
Qed.

Lemma torn_file_silences_reminders_witness :
  exists e,
    isPersistenceError e = true
    /\ trace (checkRemindersAt 9500000000000
                (withStore (snd (SaveTask rentPaid diskTornWrite)) everyMinute))
       = [EvLog e].
Proof.
  destruct (torn_file_silences_reminders 9500000000000
              (withStore (snd (SaveTask rentPaid diskTornWrite)) everyMinute))
    as (e & He & Htr & _).
  - reflexivity.
  - exists e. split; [exact He | exact Htr].
Defined.

(** ** What a tick leaves alone *)

Lemma remind_frame (now : time.Time) (r : ReminderService) (task : Task.t) :
  notesFile (store (remind now r task)) = notesFile (store r)
  /\ clock (remind now r task) = clock r
  /\ (reads r <= reads (remind now r task))%nat.
Proof.
  unfold remind. destruct (shouldSend now (sentReminders r) (Task.ID task)); [| auto].
  destruct (SaveTask (Task.UpdateStatus (tickTime r) task) (store r)) as [res st] eqn:E.
  simpl. split; [exact (proj1 (SaveTask_result _ _ _ _ E)) |]. split; [reflexivity |].
  destruct (isCompleted (Task.Status task)); lia.
Qed.

Lemma loop_frame (now : time.Time) (tasks : list Task.t) (r : ReminderService) :
  notesFile (store (fold_left (remind now) tasks r)) = notesFile (store r)
  /\ clock (fold_left (remind now) tasks r) = clock r
  /\ (reads r <= reads (fold_left (remind now) tasks r))%nat.
Proof.
  revert r. induction tasks as [| a tasks IH]; intros r; simpl; [auto |].
  destruct (IH (remind now r a)) as (Hn & Hc & Hr).
  destruct (remind_frame now r a) as (Hn' & Hc' & Hr').
  split; [congruence |]. split; [congruence | lia].
Qed.

Lemma query_notes (now : time.Time) (st : FileStorage) :
  notesFile (snd (GetTasksWithRemindersBy now st)) = notesFile st.
Proof.
  unfold GetTasksWithRemindersBy, bind.
  destruct (loadTasks st) as [[l | e] s1] eqn:E;
    exact (proj1 (loadTasks_result st s1 _ E)).
Qed.

(** X25.  A run of [checkReminders] never touches the notes file, only
    appends to the events so far, and reads the clock at least once. *)
Theorem tick_frame (r : ReminderService) :
  notesFile (store (checkReminders r)) = notesFile (store r)
  /\ clock (checkReminders r) = clock r
  /\ (reads r < reads (checkReminders r))%nat
  /\ exists evs, trace (checkReminders r) = trace r ++ evs.
Proof.
  unfold checkReminders. set (now := tickTime r). set (r0 := withReads (S (reads r)) r).
  pose proof (query_notes now (store r0)) as Hq.
  destruct (dueTasks now r0) as [tasks | e] eqn:Hdue.
  - rewrite (tick_Ok now r0 tasks Hdue). simpl.
    destruct (loop_frame now tasks (afterQuery now r0)) as (Hn & Hc & Hr).
    destruct (loop_trace now tasks (afterQuery now r0)) as (evs & Htr & _).
    simpl in *. split; [congruence |]. split; [exact Hc |]. split; [lia |].
    exists evs. exact Htr.
  - rewrite (tick_Err now r0 e Hdue). simpl.
    split; [exact Hq |]. split; [reflexivity |]. split; [lia |].
    exists [EvLog e]. reflexivity.
Qed.

(** ** What a tick does to the stored tasks *)

Lemma upsert_cons_eq {A : Type} (same : A -> bool) (x b : A) (c : list A) :
  same b = true -> upsert same x (b :: c) = x :: c.
Proof. intros H. unfold upsert. simpl. rewrite H. reflexivity. Qed.

Lemma upsert_cons_ne {A : Type} (same : A -> bool) (x b : A) (c : list A) :
  same b = false -> upsert same x (b :: c) = b :: upsert same x c.
Proof.
  intros H. unfold upsert. simpl. rewrite H.
  destruct (indexOf same c); reflexivity.
Qed.

Lemma promoted_ID (now : time.Time) (old new : Task.t) :
  promoted now old new -> Task.ID new = Task.ID old.
Proof. intros [-> | [-> _]]; reflexivity. Qed.

Lemma upsert_promoted (now : time.Time) (l c : list Task.t) (t x : Task.t) :
  List.Forall2 (promoted now) l c ->
  In t l -> List.NoDup (map Task.ID l) ->
  promoted now t x ->
  List.Forall2 (promoted now) l (upsert (sameTask (Task.ID x)) x c).
Proof.
  intros HF Hin Hnd Htx. pose proof (promoted_ID now t x Htx) as Hid.
  induction HF as [| a b l1 c1 Hab Hrest IH].
  - destruct Hin.
  - pose proof (promoted_ID now a b Hab) as Hb.
    simpl in Hnd. inversion Hnd as [| ? ? Hnotin Hnd1]; subst.
    unfold sameTask at 1.
    destruct (String.eqb_spec (Task.ID b) (Task.ID x)) as [Heq | Hne].
    + assert (t = a).
      { destruct Hin as [Ha | Ht]; [symmetry; exact Ha |].
        exfalso. apply Hnotin. replace (Task.ID a) with (Task.ID t) by congruence.
        apply in_map. exact Ht. }
      subst t. rewrite upsert_cons_eq by (apply String.eqb_eq; exact Heq).
      apply List.Forall2_cons; [exact Htx | exact Hrest].
    + rewrite upsert_cons_ne by (apply String.eqb_neq; exact Hne).
      apply List.Forall2_cons; [exact Hab |]. apply IH; [| exact Hnd1].
      destruct Hin as [Ha | Ht]; [| exact Ht].
      exfalso. apply Hne. subst a. congruence.
Qed.

Lemma loop_promotes (now : time.Time) (l : list Task.t) :
  List.NoDup (map Task.ID l) ->
  forall (tasks : list Task.t) (r : ReminderService) (c : list Task.t),
    faultFree (store r) -> tasksFile (store r) = Doc c ->
    List.Forall2 (promoted now) l c ->
    (forall t, In t tasks -> In t l /\ reminderBefore now t = true) ->
    exists c', faultFree (store (fold_left (remind now) tasks r))
               /\ tasksFile (store (fold_left (remind now) tasks r)) = Doc c'
               /\ List.Forall2 (promoted now) l c'.
Proof.
  intros Hnd. induction tasks as [| a tasks IH]; intros r c Hff Hc HF Htasks; simpl.
  - exists c. auto.
  - destruct (Htasks a (or_introl eq_refl)) as [Hal Hadue].
    assert (Hrest : forall t, In t tasks -> In t l /\ reminderBefore now t = true)
      by (intros t Ht; apply Htasks; right; exact Ht).
    destruct (shouldSend now (sentReminders r) (Task.ID a)) eqn:E.
    + destruct (remind_fire now r a E) as (Hst & _).
      destruct (SaveTask_faultFree (Task.UpdateStatus (tickTime r) a) (store r) c Hff Hc)
        as (st' & Hrun & Hff' & Hc').
      rewrite Hrun in Hst. simpl in Hst.
      apply (IH (remind now r a)
                (upsert (sameTask (Task.ID (Task.UpdateStatus (tickTime r) a)))
                   (Task.UpdateStatus (tickTime r) a) c));
        [rewrite Hst; exact Hff' | rewrite Hst; exact Hc' | | exact Hrest].
      apply (upsert_promoted now l c a); [exact HF | exact Hal | exact Hnd |].
      unfold promoted. destruct (UpdateStatus_cases (tickTime r) a) as [-> | ->]; auto.
    + rewrite (remind_skip now r a E). exact (IH r c Hff Hc HF Hrest).
Qed.

(** X26.  On a store that answers every call and whose task identifiers
    are unique, a tick changes nothing in the tasks file but statuses: the
    file afterwards holds the same number of tasks in the same order, each
    of them the task that was there or that task with status Overdue, and
    only a task that was not Completed and had its reminder before [now]
    can have changed. *)
Theorem tick_only_promotes (now : time.Time) (r : ReminderService) (l : list Task.t) :
  faultFree (store r) ->
  tasksFile (store r) = Doc l ->
  List.NoDup (map Task.ID l) ->
  exists l',
    tasksFile (store (checkRemindersAt now r)) = Doc l'
    /\ List.Forall2
         (fun old new =>
            new = old
            \/ (new = Task.setStatus TaskStatusOverdue old
                /\ Task.Status old <> TaskStatusCompleted
                /\ Task.ReminderAt old < now))
         l l'.
Proof.
  intros Hff Hl Hnd. unfold checkRemindersAt.
  rewrite (query_faultFree now (store r) l Hff Hl).
  destruct (loop_promotes now l Hnd (List.filter (reminderBefore now) l)
              (withStore (store r) r) l Hff Hl) as (c' & _ & Hc' & HF).
  - clear. induction l as [| a l IH]; constructor; [left; reflexivity | exact IH].
  - intros t Ht. apply filter_In in Ht. exact Ht.
  - exists c'. split; [exact Hc' |].
    eapply List.Forall2_impl; [| exact HF].
    intros old new [-> | [-> Hdue]]; [left; reflexivity | right].
    unfold reminderBefore, time.Before in Hdue.
    apply andb_true_iff in Hdue. destruct Hdue as [Hlt Hc].
    apply Z.ltb_lt in Hlt. apply negb_true_iff, isCompleted_false in Hc. auto.
Qed.

Lemma tick_only_promotes_witness :
  exists l',
    tasksFile (store (checkRemindersAt 9500000000000 everyMinute)) = Doc l'
    /\ List.Forall2
         (fun old new =>
            new = old
            \/ (new = Task.setStatus TaskStatusOverdue old
                /\ Task.Status old <> TaskStatusCompleted
                /\ Task.ReminderAt old < 9500000000000))
         [rent; taxes] l'.
Proof.
  apply (tick_only_promotes 9500000000000 everyMinute [rent; taxes]).
  - split; reflexivity.
  - reflexivity.
  - apply NoDup_ListNoDup. vm_compute. repeat constructor;
      rewrite ?list_elem_of_In; simpl; intuition discriminate.
Defined.

(** ** The loop of ticks *)

Lemma tickTimes_monotone (n : nat) (r : ReminderService) :
  (forall i, (i < n)%nat ->
     tickTime (reminderLoop i r) <= tickTime (reminderLoop (S i) r)) ->
  forall j k, (j <= k)%nat -> (k <= n)%nat ->
    tickTime (reminderLoop j r) <= tickTime (reminderLoop k r).
Proof.
  intros Hstep j k Hjk. induction Hjk as [| k Hjk IH]; intros Hkn; [lia |].
  specialize (Hstep k). assert (Hk : (k < n)%nat) by lia.
  specialize (Hstep Hk). assert (Hk' : (k <= n)%nat) by lia.
  specialize (IH Hk'). lia.
Qed.

(** X27.  However many times the ticker fires while the clock, which
    does not go back from one tick to the next, is still within six hours
    of the first tick, the loop calls the Notifier exactly once for a
    stored task that is not Completed, whose reminder time is before the
    first tick and which is eligible at the first tick, on a store that
    answers every call. *)
Theorem reminderLoop_once (n : nat) (r : ReminderService) (l : list Task.t)
    (task : Task.t) :
  faultFree (store r) ->
  tasksFile (store r) = Doc l ->
  In task l ->
  Task.Status task <> TaskStatusCompleted ->
  Task.ReminderAt task < tickTime r ->
  shouldSend (tickTime r) (sentReminders r) (Task.ID task) = true ->
  (forall i, (i < n)%nat ->
     tickTime (reminderLoop i r) <= tickTime (reminderLoop (S i) r)) ->
  tickTime (reminderLoop n r) - tickTime r <= reNotifyWindow ->
  notifyCount (Task.ID task) (trace (reminderLoop (S n) r))
  = S (notifyCount (Task.ID task) (trace r)).
Proof.
  intros Hff Hl Hin Hstatus Hrem Hsend Hstep Hlast.
  set (id := Task.ID task) in *. set (now1 := tickTime r) in *.
  pose proof (tickTimes_monotone n r Hstep) as Hmono.
  assert (Hinv : forall i, (i <= n)%nat ->
            stillDue (tickTime (reminderLoop i r)) id (store (reminderLoop (S i) r))
            /\ sentReminders (reminderLoop (S i) r) !! id = Some now1
            /\ notifyCount id (trace (reminderLoop (S i) r))
               = S (notifyCount id (trace r))).
  { induction i as [| i IH]; intros Hi.
    - assert (Hdue0 : stillDue now1 id (store (withReads (S (reads r)) r))).
      { split; [exact Hff |]. exists l. split; [exact Hl |].
        apply List.Exists_exists. exists task. split; [exact Hin |].
        split; [reflexivity |]. unfold reminderBefore, time.Before.
        apply andb_true_iff. split; [apply Z.ltb_lt; exact Hrem |].
        apply negb_true_iff, isCompleted_false. exact Hstatus. }
      destruct (tick_dedup now1 id _ Hdue0) as (Hdue1 & evs & Htr & _ & Hfire & _).
      destruct (Hfire Hsend) as [Hc Hs].
      change (reminderLoop 1 r)
        with (checkRemindersAt now1 (withReads (S (reads r)) r)).
      change (reminderLoop 0 r) with r.
      split; [exact Hdue1 |]. split; [exact Hs |].
      rewrite Htr, notifyCount_app. simpl. lia.
    - assert (Hi' : (i <= n)%nat) by lia.
      destruct (IH Hi') as (Hdue & Hs & Hc).
      set (r' := reminderLoop (S i) r) in *.
      set (now' := tickTime r').
      assert (Hle : tickTime (reminderLoop i r) <= now')
        by (apply Hstep; lia).
      assert (Hlo : now1 <= now').
      { change now1 with (tickTime (reminderLoop 0 r)).
        apply Hmono; lia. }
      assert (Hhi : now' - now1 <= reNotifyWindow).
      { assert (now' <= tickTime (reminderLoop n r)) by (apply Hmono; lia). lia. }
      change (reminderLoop (S (S i)) r)
        with (checkRemindersAt now' (withReads (S (reads r')) r')).
      assert (Hdue' : stillDue now' id (store (withReads (S (reads r')) r')))
        by exact (stillDue_later _ now' id _ Hle Hdue).
      destruct (tick_dedup now' id _ Hdue') as (Hdue2 & _).
      destruct (tick_quiet now' now1 id (withReads (S (reads r')) r') Hs Hhi)
        as [Hc2 Hs2].
      split; [exact Hdue2 |]. split; [exact Hs2 |].
      rewrite Hc2. exact Hc. }
  exact (proj2 (proj2 (Hinv n (Nat.le_refl n)))).
Qed.

Lemma reminderLoop_once_witness :
  notifyCount (Task.ID rent) (trace (reminderLoop 3 everyMinute)) = 1%nat.
Proof.
  apply (reminderLoop_once 2 everyMinute [rent; taxes] rent).
  - split; reflexivity.
  - reflexivity.
  - left. reflexivity.
  - discriminate.
  - vm_compute. reflexivity.
  - vm_compute. reflexivity.
  - intros i Hi. destruct i as [| [| i]]; [| | lia]; vm_compute; discriminate.
  - vm_compute. discriminate.
Defined.

(** ** No eligible task is forgotten *)

(** X28.  Whenever the query of a tick succeeds, the tick calls the
    Notifier exactly once for every stored task that is not Completed, has
    its reminder time before [now] and is eligible, and records [now] for
    it in the ledger, whatever the store does afterwards in the tick
    (every [SaveTask] may fail). *)
Theorem eligible_task_is_notified (now : time.Time) (r : ReminderService)
    (l tasks : list Task.t) (task : Task.t) :
  records (tasksFile (store r)) = Some l ->
  dueTasks now r = Ok tasks ->
  In task l ->
  Task.Status task <> TaskStatusCompleted ->
  Task.ReminderAt task < now ->
  shouldSend now (sentReminders r) (Task.ID task) = true ->
  notifyCount (Task.ID task) (trace (checkRemindersAt now r))
  = S (notifyCount (Task.ID task) (trace r))
  /\ sentReminders (checkRemindersAt now r) !! Task.ID task = Some now.
Proof.
  intros Hl Hdue Hin Hstatus Hrem Hsend.
  rewrite (tick_Ok now r tasks Hdue). simpl.
  assert (Hex : Exists (fun x => Task.ID x = Task.ID task) tasks).
  { rewrite (dueTasks_Ok now r l tasks Hl Hdue).
    apply List.Exists_exists. exists task. split; [| reflexivity].
    apply filter_In. split; [exact Hin |].
    unfold reminderBefore, time.Before.
    apply andb_true_iff. split; [apply Z.ltb_lt; exact Hrem |].
    apply negb_true_iff, isCompleted_false. exact Hstatus. }
  destruct (loop_once now (Task.ID task) tasks (afterQuery now r) Hsend Hex) as [Hc Hs].
  split; [exact Hc |]. apply sweep_keeps; [exact Hs |].
  rewrite Sub_self. vm_compute. discriminate.
Qed.

Lemma eligible_task_is_notified_witness :
  notifyCount (Task.ID rent) (trace (checkRemindersAt 9500000000000 lateNoWrite)) = 1%nat
  /\ sentReminders (checkRemindersAt 9500000000000 lateNoWrite) !! Task.ID rent
     = Some 9500000000000.
Proof.
  apply (eligible_task_is_notified 9500000000000 lateNoWrite [rent; taxes] [rent; taxes] rent).
  - reflexivity.
  - reflexivity.
  - left. reflexivity.
  - discriminate.
  - vm_compute. reflexivity.
  - vm_compute. reflexivity.
Defined.
